(** * ring-mqtt: the live-stream worker pool ([lib/stream-workers.js])

    A shallow embedding of the [StreamWorkers] class: the pool of worker
    entries, the three event handlers installed by [init] (worker status
    messages, [start_livestream], [stop_livestream]) and [getWorkerId],
    followed by the properties of the pool scheduler.

    Modelling choices, all read off the source:

    - a worker's [sessions] is a plain JS object used as a dictionary
      keyed by the device id.  Its own properties are a
      [gmap string session]: [Object.keys(..).length] is the size,
      [delete] the removal.  Two keys do not behave as dictionary keys and
      are modelled as the object treats them: an assignment to
      ["__proto__"] creates no own property, and a record stored under
      ["hasOwnProperty"] shadows the method that [getWorkerId] calls on
      the object, which then throws;
    - [streamData] is a JS object passed by reference: the session record
      [{ streamData }] keeps the caller's object, and the "active" branch
      writes [sessionId] into it in place.  Payload objects therefore live
      in a heap, and a record holds a location;
    - [postMessage] serialises its argument (structured clone), so a
      command carries the contents of the payload at the time it is sent;
    - a handler can throw a [TypeError] (property access on [undefined],
      call of something that is not a function); the effects that precede
      the throw have happened;
    - [utils.debug] only logs and is left out. *)

From Stdlib Require Import ZArith QArith Qround Lia.
From stdpp Require Import base option list gmap strings.

Open Scope string_scope.
Open Scope list_scope.
Open Scope Z_scope.

(** ** Pool sizing (lines 39-40) *)

(** [Math.round(x)]: the integer nearest to [x], halves rounded up. *)
Definition Math_round (x : Q) : Z := Qfloor (x + 0.5)%Q.

(** [cpuCores/1.5].  For an integer [cpuCores] the exact quotient is
    [2*cpuCores/3], whose distance to the nearest rounding boundary
    (a half-integer) is at least [1/6]; the binary64 division of the
    source is off by far less, so rounding the exact quotient gives the
    same integer. *)
Definition cores_over_1_5 (cpuCores : Z) : Q := (inject_Z cpuCores / 1.5)%Q.

(** [const numWorkers = cpuCores > 4 ? 4 : Math.round(cpuCores/1.5)] *)
Definition numWorkers (cpuCores : Z) : Z :=
  if cpuCores >? 4 then 4 else Math_round (cores_over_1_5 cpuCores).

(** The sizing rule in the words of the specification:
    [N = min(4, round(cores/1.5))]. *)
Definition spec_numWorkers (cpuCores : Z) : Z :=
  Z.min 4 (Math_round (cores_over_1_5 cpuCores)).

(** ** Data model *)

(** Heap locations of payload objects. *)
Abbreviation loc := nat (only parsing).

(** The [streamData] payload: the fields the pool reads or writes, and the
    remaining stream parameters, which it never inspects. *)
Record StreamData := mkStreamData {
  deviceId : string;
  deviceName : string;
  sessionId : option string;
  params : list (string * string)
}.

(** [streamData.sessionId = v], on the contents of the object. *)
Definition set_sessionId (v : option string) (sd : StreamData) : StreamData :=
  {| deviceId := deviceId sd; deviceName := deviceName sd;
     sessionId := v; params := params sd |}.

(** The session record [{ streamData }]: a reference to the payload. *)
Record session := mkSession { streamData : loc }.

(** A worker entry [{ liveCall, sessions }]; [liveCall] is the handle of the
    worker thread. *)
Record worker := mkWorker {
  liveCall : nat;
  sessions : gmap string session
}.

(** What the handlers can see and change: [this.streamWorkers] and the
    payload objects. *)
Record world := mkWorld {
  streamWorkers : list worker;
  heap : gmap loc StreamData
}.

(** A status message of a worker thread:
    [{ state, liveCallData: { deviceId, sessionId } }]. *)
Module LiveCallData.
Record t := mk { deviceId : string; sessionId : option string }.
End LiveCallData.

Record message := mkMessage {
  state : string;
  liveCallData : LiveCallData.t
}.

(** Effects visible outside the class. *)
Inductive effect :=
| Emit (topic : string) (arg : string)
    (* utils.event.emit(topic, arg) *)
| PostMessage (thread : nat) (command : string) (payload : StreamData).
    (* liveCall.postMessage({ command, streamData }) *)

(** ** JS library functions used by the handlers *)

(** A computation that may throw a [TypeError]. *)
Inductive outcome (A : Type) := Ok (a : A) | TypeError.
Arguments Ok {A} a.
Arguments TypeError {A}.

(** Index of the first element satisfying [p], or [-1]. *)
Fixpoint first_index {A} (p : A → bool) (l : list A) : Z :=
  match l with
  | [] => -1
  | x :: l' =>
      if p x then 0
      else let i := first_index p l' in if i <? 0 then -1 else i + 1
  end.

(** [Array.prototype.findIndex]: the callback is called on the elements
    in order until it returns [true]; if a call throws, so does
    [findIndex]. *)
Fixpoint findIndex {A} (p : A → outcome bool) (l : list A) : outcome Z :=
  match l with
  | [] => Ok (-1)
  | x :: l' =>
      match p x with
      | TypeError => TypeError
      | Ok true => Ok 0
      | Ok false =>
          match findIndex p l' with
          | TypeError => TypeError
          | Ok i => Ok (if i <? 0 then -1 else i + 1)
          end
      end
  end.

(** JS numbers as the placement code meets them: session counts, and the
    [Infinity] that [Math.min()] returns without arguments. *)
Inductive number := Num (n : Z) | Infinity.

Definition number_eqb (a b : number) : bool :=
  match a, b with
  | Num x, Num y => x =? y
  | Infinity, Infinity => true
  | _, _ => false
  end.

Definition number_min (a b : number) : number :=
  match a, b with
  | Num x, Num y => Num (Z.min x y)
  | Num x, Infinity => Num x
  | Infinity, b => b
  end.

(** [Math.min(...l)] *)
Definition Math_min (l : list Z) : number :=
  foldr (λ x acc, number_min (Num x) acc) Infinity l.

(** [Array.prototype.indexOf] on an array of counts (strict equality). *)
Definition indexOf (l : list Z) (v : number) : Z :=
  first_index (λ x, number_eqb (Num x) v) l.

(** [arr[i]] for a computed index: [undefined] outside the array. *)
Definition at_index {A} (l : list A) (i : Z) : option A :=
  if i <? 0 then None else l !! Z.to_nat i.

(** The [sessions] object of [w] has the own property [k]. *)
Definition owns (w : worker) (k : string) : bool :=
  bool_decide (is_Some (sessions w !! k)).

(** [worker.sessions.hasOwnProperty(deviceId)] (line 99).  The method is
    looked up on the [sessions] object itself: as long as the object has
    no own property of that name, it is the method of [Object.prototype],
    the own-property test; once a record is stored under the key
    ["hasOwnProperty"], that record is what gets called, and calling an
    object that is not a function throws. *)
Definition hasOwnProperty (w : worker) (k : string) : outcome bool :=
  if owns w "hasOwnProperty" then TypeError else Ok (owns w k).

(** [Object.keys(worker.sessions).length] *)
Definition keys_length (w : worker) : Z := Z.of_nat (size (sessions w)).

(** [sessions[k] = rec] (line 80).  For the key ["__proto__"] the
    assignment runs the setter inherited from [Object.prototype]: the
    record becomes the prototype of [sessions] and no own property is
    created.  The prototype is never observed by the class, which tests
    and counts own properties only, reads a key only after the own-property
    test has succeeded, and still finds the method [hasOwnProperty] behind
    a record (whose only own property is [streamData]). *)
Definition set_property (m : gmap string session) (k : string) (rec : session) :
    gmap string session :=
  if decide (k = "__proto__") then m else <[k := rec]> m.

(** ** Handler monad: state, effect log and [TypeError] *)

Definition M (A : Type) : Type := world → outcome A * world * list effect.

Definition ret {A} (a : A) : M A := λ s, (Ok a, s, []).

Definition bind {A B} (m : M A) (f : A → M B) : M B :=
  λ s, match m s with
       | (Ok a, s1, o1) =>
           match f a s1 with (r, s2, o2) => (r, s2, o1 ++ o2) end
       | (TypeError, s1, o1) => (TypeError, s1, o1)
       end.

Notation "'let*' x ':=' m 'in' k" := (bind m (λ x, k))
  (at level 10, x name, m at level 100, k at level 200).

Definition throw {A} : M A := λ s, (TypeError, s, []).
Definition get_workers : M (list worker) := λ s, (Ok (streamWorkers s), s, []).
Definition get_heap : M (gmap loc StreamData) := λ s, (Ok (heap s), s, []).
Definition tell (e : effect) : M unit := λ s, (Ok tt, s, [e]).

(** The result of a call that may have thrown. *)
Definition lift {A} (x : outcome A) : M A :=
  match x with Ok a => ret a | TypeError => throw end.

(** A value that must not be [undefined] where it is used. *)
Definition defined {A} (o : option A) : M A :=
  match o with Some a => ret a | None => throw end.

(** Reading a property of the object at [r]. *)
Definition deref (r : loc) : M StreamData :=
  let* h := get_heap in defined (h !! r).

(** [this.streamWorkers[workerId]], about to be dereferenced. *)
Definition worker_at (workerId : Z) : M worker :=
  let* ws := get_workers in defined (at_index ws workerId).

(** The array [ws] once the [sessions] object of entry [i] has become [m]
    (the entry keeps its thread). *)
Definition with_sessions (ws : list worker) (i : Z) (m : gmap string session) :
    list worker :=
  alter (λ w, {| liveCall := liveCall w; sessions := m |}) (Z.to_nat i) ws.

(** An update of [this.streamWorkers[workerId].sessions]. *)
Definition put_sessions (workerId : Z) (m : gmap string session) : M unit :=
  λ s, (Ok tt,
        {| streamWorkers := with_sessions (streamWorkers s) workerId m;
           heap := heap s |}, []).

(** Overwriting the contents of the object at [r]. *)
Definition put_object (r : loc) (sd : StreamData) : M unit :=
  λ s, (Ok tt, {| streamWorkers := streamWorkers s;
                  heap := <[r := sd]> (heap s) |}, []).

(** ** The class *)

(** [getWorkerId(deviceId)] (lines 98-100) *)
Definition getWorkerId (ws : list worker) (deviceId : string) : outcome Z :=
  findIndex (λ w, hasOwnProperty w deviceId) ws.

(** [this.getWorkerId(deviceId)], called by a listener. *)
Definition call_getWorkerId (deviceId : string) : M Z :=
  let* ws := get_workers in lift (getWorkerId ws deviceId).

(** [utils.event.emit(`livestream_${deviceId}`, st)] *)
Definition emit_livestream (deviceId : string) (st : string) : M unit :=
  tell (Emit ("livestream_" ++ deviceId)%string st).

(** [delete this.streamWorkers[workerId].sessions[deviceId]] *)
Definition delete_session (workerId : Z) (deviceId : string) : M unit :=
  let* w := worker_at workerId in
  put_sessions workerId (delete deviceId (sessions w)).

(** Reading the object behind [rec.streamData]. *)
Definition stored_streamData (rec : session) : M StreamData :=
  deref (streamData rec).

(** The ['message'] listener of every worker thread (lines 49-68). *)
Definition on_message (data : message) : M unit :=
  let deviceId := LiveCallData.deviceId (liveCallData data) in
  let* workerId := call_getWorkerId deviceId in
  if workerId >=? 0 then
    if String.eqb (state data) "active" then
      let* _ := emit_livestream deviceId "active" in
      let* w := worker_at workerId in
      let* rec := defined (sessions w !! deviceId) in
      let* sd := stored_streamData rec in
      put_object (streamData rec)
        (set_sessionId (LiveCallData.sessionId (liveCallData data)) sd)
    else if String.eqb (state data) "inactive" then
      let* _ := emit_livestream deviceId "inactive" in
      delete_session workerId deviceId
    else if String.eqb (state data) "failed" then
      let* _ := emit_livestream deviceId "failed" in
      delete_session workerId deviceId
    else ret tt
  else ret tt.

(** The [start_livestream] listener (lines 71-83). *)
Definition on_start_livestream (streamData : loc) : M unit :=
  let* sd := deref streamData in
  let* found := call_getWorkerId (deviceId sd) in
  if found <? 0 then
    let* ws := get_workers in
    let workerSessions := map keys_length ws in
    let fewestSessions := Math_min workerSessions in
    let workerId := indexOf workerSessions fewestSessions in
    let* w := worker_at workerId in
    let* _ := put_sessions workerId
                (set_property (sessions w) (deviceId sd) (mkSession streamData)) in
    tell (PostMessage (liveCall w) "start" sd)
  else ret tt.

(** The [stop_livestream] listener (lines 85-95). *)
Definition on_stop_livestream (streamData : loc) : M unit :=
  let* sd := deref streamData in
  let* workerId := call_getWorkerId (deviceId sd) in
  if workerId >=? 0 then
    let* w := worker_at workerId in
    let* rec := defined (sessions w !! deviceId sd) in
    let* stored := stored_streamData rec in
    tell (PostMessage (liveCall w) "stop" stored)
  else
    emit_livestream (deviceId sd) "inactive".

(** [init()] (lines 38-47): one entry per worker thread, each with an empty
    [sessions] object.  The loop body does not run when [numWorkers <= 0]. *)
Definition spawn (n : nat) : list worker :=
  map (λ i, {| liveCall := i; sessions := ∅ |}) (seq 0 n).

Definition init (cpuCores : Z) : world :=
  {| streamWorkers := spawn (Z.to_nat (numWorkers cpuCores)); heap := ∅ |}.

(** ** The pool as a transition system *)

(** What can happen to the pool: the two requests published on the event
    bus, a status message from some worker thread (the same listener is
    installed on every thread and does not look at the sender), and code
    outside the pool creating or overwriting a payload object it holds. *)
Inductive event :=
| start_livestream (streamData : loc)
| stop_livestream (streamData : loc)
| worker_message (data : message)
| caller_write (r : loc) (sd : StreamData).

Definition handle (ev : event) : M unit :=
  match ev with
  | start_livestream r => on_start_livestream r
  | stop_livestream r => on_stop_livestream r
  | worker_message data => on_message data
  | caller_write r sd => put_object r sd
  end.

Definition result_of {A} (x : outcome A * world * list effect) : outcome A := x.1.1.
Definition world_of {A} (x : outcome A * world * list effect) : world := x.1.2.
Definition effects_of {A} (x : outcome A * world * list effect) : list effect := x.2.

(** Processing a sequence of events one at a time, a throwing listener
    not stopping the process; the effects are collected in order. *)
Fixpoint run (evs : list event) (s : world) : world * list effect :=
  match evs with
  | [] => (s, [])
  | ev :: evs' =>
      let x := handle ev s in
      let y := run evs' (world_of x) in
      (y.1, effects_of x ++ y.2)
  end.

(** States reachable from the pool built by [init]. *)
Inductive reachable (cpuCores : Z) : world → Prop :=
| reachable_init : reachable cpuCores (init cpuCores)
| reachable_step s ev :
    reachable cpuCores s → reachable cpuCores (world_of (handle ev s)).

(** ** Vocabulary of the properties *)

(** Worker entry [i] holds a record for key [k]. *)
Definition holds (ws : list worker) (i : nat) (k : string) : Prop :=
  ∃ w, ws !! i = Some w ∧ is_Some (sessions w !! k).

(** [k] is registered somewhere in the pool. *)
Definition registered (ws : list worker) (k : string) : Prop :=
  ∃ i, holds ws i k.

(** Number of registries that contain [k]. *)
Definition entries (ws : list worker) (k : string) : nat :=
  length (filter (λ w, owns w k = true) ws).

(** The lowest index of an entry that holds [k], or [-1]: what the scan of
    [getWorkerId] arrives at when none of its calls throws. *)
Definition first_holder (ws : list worker) (k : string) : Z :=
  first_index (λ w, owns w k) ws.

(** No registry has a record under the key ["hasOwnProperty"]: the method
    call of line 99 works on every entry. *)
Definition clean (ws : list worker) : Prop := ¬ registered ws "hasOwnProperty".

(** No entry up to index [i] (included) has a record under the key
    ["hasOwnProperty"]: the scan of [getWorkerId] gets as far as entry [i]
    without throwing. *)
Definition scan_reaches (ws : list worker) (i : nat) : Prop :=
  ∀ j, (j ≤ i)%nat → ¬ holds ws j "hasOwnProperty".

(** The record under key [k] in the registry of worker entry [i]. *)
Definition entry (ws : list worker) (i : nat) (k : string) : option session :=
  w ← ws !! i; sessions w !! k.

(** [rec] is the record stored for [k] somewhere in the pool. *)
Definition has_record (ws : list worker) (k : string) (rec : session) : Prop :=
  ∃ i, entry ws i k = Some rec.

(** The state after [init] and a sequence of events. *)
Definition after (cpuCores : Z) (evs : list event) : world :=
  (run evs (init cpuCores)).1.

(** A start request with payload object [r] is accepted for key [k]. *)
Definition accepted (s : world) (r : loc) (k : string) : Prop :=
  ∃ sd, heap s !! r = Some sd ∧ deviceId sd = k ∧
        ¬ registered (streamWorkers s) k.

(** In the history [evs], the record [rec] of [k] was created by the start
    request that follows [pre], was accepted there, and has been the
    record of [k] ever since. *)
Definition started_by (cpuCores : Z) (evs : list event) (k : string)
    (rec : session) (pre post : list event) : Prop :=
  evs = pre ++ start_livestream (streamData rec) :: post ∧
  accepted (after cpuCores pre) (streamData rec) k ∧
  ∀ post1 post2, post = post1 ++ post2 →
    has_record
      (streamWorkers
         (after cpuCores (pre ++ start_livestream (streamData rec) :: post1)))
      k rec.

(** Two payload contents that differ at most in [sessionId]. *)
Definition same_stream (a b : StreamData) : Prop :=
  deviceId a = deviceId b ∧ deviceName a = deviceName b ∧ params a = params b.

(** No event of [evs] is a write of the caller to the object at [r]. *)
Definition untouched (r : loc) (evs : list event) : Prop :=
  ∀ sd, caller_write r sd ∉ evs.

(** A session key is in at most one registry. *)
Definition unique_owner (ws : list worker) : Prop :=
  ∀ i j k, holds ws i k → holds ws j k → i = j.

(** The pool never changes size, and entry [i] keeps thread handle [i]. *)
Definition pool_shape (n : nat) (ws : list worker) : Prop :=
  length ws = n ∧ ∀ i w, ws !! i = Some w → liveCall w = i.

(** Every record points to a payload object. *)
Definition records_allocated (s : world) : Prop :=
  ∀ i w k rec,
    streamWorkers s !! i = Some w → sessions w !! k = Some rec →
    is_Some (heap s !! streamData rec).

(** The commands with a given name among some effects. *)
Definition is_command (name : string) (e : effect) : bool :=
  match e with
  | PostMessage _ c _ => String.eqb c name
  | Emit _ _ => false
  end.

Definition commands (name : string) (out : list effect) : list effect :=
  filter (λ e, is_command name e = true) out.

(** The index chosen by the placement code of [start_livestream]. *)
Definition placement (ws : list worker) : Z :=
  indexOf (map keys_length ws) (Math_min (map keys_length ws)).

(** The ways an event can change the world: not at all; a record for a
    fresh key, pointing to the payload of the request; a key deleted by a
    status message; the [sessionId] written into the payload of the
    message's key; a payload written by its owner. *)
Inductive world_change (s : world) : event → world → Prop :=
| change_none ev : world_change s ev s
| change_insert (i : nat) w r sd :
    streamWorkers s !! i = Some w →
    heap s !! r = Some sd →
    ¬ registered (streamWorkers s) (deviceId sd) →
    deviceId sd ≠ "__proto__" →
    world_change s (start_livestream r)
      {| streamWorkers :=
           with_sessions (streamWorkers s) (Z.of_nat i)
             (<[deviceId sd := mkSession r]> (sessions w));
         heap := heap s |}
| change_delete (i : nat) w data :
    streamWorkers s !! i = Some w →
    state data = "inactive" ∨ state data = "failed" →
    world_change s (worker_message data)
      {| streamWorkers :=
           with_sessions (streamWorkers s) (Z.of_nat i)
             (delete (LiveCallData.deviceId (liveCallData data)) (sessions w));
         heap := heap s |}
| change_active (i : nat) w data rec sd :
    streamWorkers s !! i = Some w →
    sessions w !! LiveCallData.deviceId (liveCallData data) = Some rec →
    heap s !! streamData rec = Some sd →
    world_change s (worker_message data)
      {| streamWorkers := streamWorkers s;
         heap := <[streamData rec :=
                     set_sessionId (LiveCallData.sessionId (liveCallData data)) sd]>
                   (heap s) |}
| change_caller r sd :
    world_change s (caller_write r sd)
      {| streamWorkers := streamWorkers s; heap := <[r := sd]> (heap s) |}.

(** Registry sizes never increase with the pool index and differ by at
    most one. *)
Definition balanced (ws : list worker) : Prop :=
  ∀ i j wi wj,
    (i < j)%nat → ws !! i = Some wi → ws !! j = Some wj →
    (size (sessions wj) ≤ size (sessions wi) ≤ size (sessions wj) + 1)%nat.

(** A history in which no worker has reported "inactive" or "failed". *)
Definition no_terminal (evs : list event) : Prop :=
  ∀ data, worker_message data ∈ evs →
          state data ≠ "inactive" ∧ state data ≠ "failed".

Ltac run_monad :=
  unfold on_start_livestream, on_stop_livestream, on_message,
    call_getWorkerId, delete_session, stored_streamData, emit_livestream,
    worker_at, deref, put_sessions, put_object, defined, lift, bind,
    get_workers, get_heap, tell, throw, ret; simpl.

(** ** Examples: a host with three cores, hence two workers *)

Definition payload (k : string) : StreamData :=
  {| deviceId := k; deviceName := "cam " ++ k; sessionId := None;
     params := [("rtspPublishUrl", "rtsp://localhost:8554/" ++ k)] |}%string.

Definition report (st k : string) (sid : option string) : message :=
  {| state := st; liveCallData := LiveCallData.mk k sid |}.

(** The request object of a stop for A: same key, different contents. *)
Definition stop_A : StreamData :=
  {| deviceId := "A"; deviceName := "cam A"; sessionId := None; params := [] |}.

(** Callers create the payloads of A, B, C and D (objects 1 to 4), and a
    stop request for A (object 5); A and B are started. *)
Definition ex_events : list event :=
  [caller_write 1%nat (payload "A"); caller_write 2%nat (payload "B");
   caller_write 3%nat (payload "C"); caller_write 4%nat (payload "D");
   caller_write 5%nat stop_A;
   start_livestream 1%nat; start_livestream 2%nat].

Definition ex_world : world := after 3 ex_events.

Definition ex_worker0 : worker :=
  {| liveCall := 0; sessions := {["A" := mkSession 1]} |}.

Definition ex_worker1 : worker :=
  {| liveCall := 1; sessions := {["B" := mkSession 2]} |}.

(** The scenario of the specification, continued from [ex_world]: A
    becomes active, is stopped and reported inactive, then C is started. *)
Definition scenario : list event :=
  [worker_message (report "active" "A" (Some "s-1"));
   stop_livestream 5%nat;
   worker_message (report "inactive" "A" None);
   start_livestream 3%nat].

(** D is started and becomes active, its worker reports a failure, and D
    is stopped afterwards. *)
Definition failure_scenario : list event :=
  [start_livestream 4%nat;
   worker_message (report "active" "D" (Some "s-2"));
   worker_message (report "failed" "D" None);
   stop_livestream 4%nat].

(** ** Examples with the keys that a JS object does not treat as
    dictionary keys *)

(** On the same host, a session whose device id is ["hasOwnProperty"] has
    been started (it went to worker 0), and callers hold payloads for B
    and for a device called ["__proto__"]. *)
Definition shadow_events : list event :=
  [caller_write 1%nat (payload "hasOwnProperty");
   caller_write 2%nat (payload "B");
   caller_write 3%nat (payload "__proto__");
   start_livestream 1%nat].

Definition shadow_world : world := after 3 shadow_events.

(** The same pool before that start. *)
Definition proto_world : world :=
  after 3 [caller_write 3%nat (payload "__proto__")].

(** A is on worker 0 and the session called ["hasOwnProperty"] on
    worker 1. *)
Definition mixed_world : world :=
  after 3 [caller_write 1%nat (payload "A");
           caller_write 2%nat (payload "hasOwnProperty");
           start_livestream 1%nat; start_livestream 2%nat].

(** * Properties *)

(** ** [indexOf], [Math.min] *)

Section FirstIndex.
Context {A : Type} (p : A → bool).

Lemma first_index_range (l : list A) :
  -1 ≤ first_index p l < Z.of_nat (length l).
Proof.
  induction l as [|x l IH]; simpl; [lia|].
  destruct (p x); [lia|].
  destruct (Z.ltb_spec (first_index p l) 0); lia.
Qed.

Lemma first_index_none (l : list A) :
  first_index p l < 0 ↔ ∀ i x, l !! i = Some x → p x = false.
Proof.
  induction l as [|x l IH]; simpl.
  - split; [intros _ i x Hi; by rewrite lookup_nil in Hi | lia].
  - destruct (p x) eqn:Hx.
    + split; [lia|]. intros H. specialize (H 0%nat x eq_refl). congruence.
    + pose proof (first_index_range l) as Hr.
      destruct (Z.ltb_spec (first_index p l) 0) as [Hlt|Hge].
      * split; [|lia]. intros _ [|i] y Hi; simpl in Hi.
        -- congruence.
        -- apply IH in Hi; auto.
      * split; [lia|]. intros H.
        assert (first_index p l < 0); [|lia].
        apply IH. intros i y Hi. apply (H (S i) y Hi).
Qed.

Lemma first_index_some (l : list A) (i : nat) :
  first_index p l = Z.of_nat i ↔
  ∃ x, l !! i = Some x ∧ p x = true ∧
       ∀ j y, (j < i)%nat → l !! j = Some y → p y = false.
Proof.
  revert i. induction l as [|x l IH]; intros i; simpl.
  - split; [lia|]. intros (y & Hy & _). by rewrite lookup_nil in Hy.
  - destruct (p x) eqn:Hx.
    + split.
      * intros Hi. assert (i = 0%nat) as -> by lia.
        exists x. repeat split; auto. intros; lia.
      * intros (y & Hy & Hpy & Hfirst). destruct i as [|i]; [done|].
        specialize (Hfirst 0%nat x). simpl in Hfirst.
        rewrite Hfirst in Hx; [done | lia | done].
    + pose proof (first_index_range l) as Hr.
      destruct (Z.ltb_spec (first_index p l) 0) as [Hlt|Hge].
      * split; [lia|]. intros (y & Hy & Hpy & _).
        destruct i as [|i]; simpl in Hy; [congruence|].
        apply first_index_none with (i := i) (x := y) in Hlt; congruence.
      * destruct i as [|i].
        -- split; [lia|]. intros (y & Hy & Hpy & _). simpl in Hy. congruence.
        -- split.
           ++ intros Hi. assert (first_index p l = Z.of_nat i) as Hi' by lia.
              apply IH in Hi' as (y & Hy & Hpy & Hfirst).
              exists y. repeat split; auto.
              intros [|j] z Hj Hz; simpl in Hz; [congruence|].
              apply (Hfirst j z); [lia | done].
           ++ intros (y & Hy & Hpy & Hfirst).
              assert (first_index p l = Z.of_nat i) as Hi'; [|lia].
              apply IH. exists y. repeat split; auto.
              intros j z Hj Hz. apply (Hfirst (S j) z); [lia | done].
Qed.
End FirstIndex.

Lemma first_index_cases {A} (p : A → bool) (l : list A) :
  first_index p l = -1 ∨ ∃ i : nat, first_index p l = Z.of_nat i.
Proof.
  pose proof (first_index_range p l).
  destruct (Z.ltb_spec (first_index p l) 0); [left; lia|].
  right. exists (Z.to_nat (first_index p l)). lia.
Qed.

Lemma at_index_nat {A} (l : list A) (i : nat) : at_index l (Z.of_nat i) = l !! i.
Proof.
  unfold at_index. destruct (Z.ltb_spec (Z.of_nat i) 0); [lia|].
  by rewrite Nat2Z.id.
Qed.

Lemma at_index_neg {A} (l : list A) (i : Z) : i < 0 → at_index l i = None.
Proof. intros. unfold at_index. destruct (Z.ltb_spec i 0); [done | lia]. Qed.

Lemma Math_min_spec (l : list Z) :
  l ≠ [] →
  ∃ m, Math_min l = Num m ∧ (∃ i, l !! i = Some m) ∧
       ∀ i x, l !! i = Some x → m ≤ x.
Proof.
  induction l as [|a l IH]; [done|]. intros _.
  destruct l as [|b l].
  - exists a. simpl. split; [done|]. split; [by exists 0%nat|].
    intros [|i] x Hi; simpl in Hi; [injection Hi; lia | by rewrite lookup_nil in Hi].
  - destruct IH as (m & Hm & [i Hi] & Hle); [done|].
    change (Math_min (a :: b :: l)) with (number_min (Num a) (Math_min (b :: l))).
    rewrite Hm. simpl. exists (Z.min a m). split; [done|]. split.
    + destruct (Z.min_spec a m) as [[_ ->]|[_ ->]];
        [by exists 0%nat | by exists (S i)].
    + intros [|j] x Hj.
      * simpl in Hj. injection Hj. lia.
      * specialize (Hle j x Hj). lia.
Qed.

Lemma indexOf_Infinity (l : list Z) : indexOf l Infinity = -1.
Proof.
  unfold indexOf. pose proof (first_index_range (λ x, number_eqb (Num x) Infinity) l).
  assert (first_index (λ x, number_eqb (Num x) Infinity) l < 0); [|lia].
  apply first_index_none. done.
Qed.

(** The index chosen by lines 76-78 on a non-empty array of counts: the
    first position of a least element. *)
Lemma indexOf_Math_min (l : list Z) :
  l ≠ [] →
  ∃ (i : nat) m,
    indexOf l (Math_min l) = Z.of_nat i ∧ l !! i = Some m ∧
    (∀ j x, l !! j = Some x → m ≤ x) ∧
    (∀ j x, (j < i)%nat → l !! j = Some x → m < x).
Proof.
  intros Hne. destruct (Math_min_spec l Hne) as (m & Hm & [i0 Hi0] & Hle).
  rewrite Hm. unfold indexOf.
  destruct (first_index_cases (λ x, number_eqb (Num x) (Num m)) l) as [Hn|[i Hi]].
  - assert (first_index (λ x, number_eqb (Num x) (Num m)) l < 0) as H by lia.
    rewrite first_index_none in H. specialize (H i0 m Hi0). simpl in H.
    rewrite Z.eqb_refl in H. done.
  - exists i, m. split; [done|].
    apply first_index_some in Hi as (x & Hx & Hpx & Hfirst).
    simpl in Hpx. apply Z.eqb_eq in Hpx as ->.
    repeat split; auto.
    intros j y Hj Hy. specialize (Hfirst j y Hj Hy). simpl in Hfirst.
    apply Z.eqb_neq in Hfirst. specialize (Hle j y Hy). lia.
Qed.

(** ** [getWorkerId] *)

Lemma owns_true w k : owns w k = true ↔ is_Some (sessions w !! k).
Proof. unfold owns. apply bool_decide_eq_true. Qed.

Lemma owns_false w k : owns w k = false ↔ sessions w !! k = None.
Proof.
  unfold owns. rewrite bool_decide_eq_false.
  by rewrite eq_None_not_Some.
Qed.

Lemma first_holder_range ws k : -1 ≤ first_holder ws k < Z.of_nat (length ws).
Proof. apply first_index_range. Qed.

Lemma first_holder_none ws k : first_holder ws k < 0 ↔ ¬ registered ws k.
Proof.
  unfold first_holder. rewrite first_index_none. split.
  - intros H (i & w & Hw & Hk). apply H in Hw.
    apply owns_false in Hw. rewrite Hw in Hk. by destruct Hk.
  - intros H i w Hw. apply owns_false.
    apply eq_None_not_Some. intros Hk. apply H. by exists i, w.
Qed.

Lemma first_holder_some ws k (i : nat) :
  first_holder ws k = Z.of_nat i → holds ws i k.
Proof.
  unfold first_holder. rewrite first_index_some. intros (w & Hw & Hk & _).
  exists w. split; [done|]. by apply owns_true.
Qed.

Lemma first_holder_registered ws k : registered ws k ↔ 0 ≤ first_holder ws k.
Proof.
  pose proof (first_holder_none ws k) as H.
  split; intros Hr.
  - destruct (Z.ltb_spec (first_holder ws k) 0) as [Hlt|]; [|done].
    by apply H in Hlt.
  - destruct (first_index_cases (λ w, owns w k) ws) as [Hn|[i Hi]].
    + unfold first_holder in Hr. lia.
    + exists i. by apply first_holder_some.
Qed.

Lemma first_holder_owner ws k (i : nat) :
  unique_owner ws → holds ws i k → first_holder ws k = Z.of_nat i.
Proof.
  intros Hu Hi.
  assert (0 ≤ first_holder ws k) as Hge
    by (apply first_holder_registered; by exists i).
  destruct (first_index_cases (λ w, owns w k) ws) as [Hn|[j Hj]].
  - unfold first_holder in Hge. lia.
  - pose proof (first_holder_some ws k j Hj) as Hjk.
    rewrite (Hu i j k Hi Hjk). done.
Qed.

Lemma clean_cons w ws :
  clean (w :: ws) ↔ owns w "hasOwnProperty" = false ∧ clean ws.
Proof.
  unfold clean. split.
  - intros Hc. split.
    + apply owns_false, eq_None_not_Some. intros Hs. apply Hc.
      by exists 0%nat, w.
    + intros (i & w' & Hw' & Hk). apply Hc. by exists (S i), w'.
  - intros [Hw Hc] ([|i] & w' & Hw' & Hk); simpl in Hw'.
    + injection Hw' as <-. apply owns_false in Hw. rewrite Hw in Hk.
      by destruct Hk.
    + apply Hc. by exists i, w'.
Qed.

(** When the scan of [getWorkerId] does not throw, it returns the lowest
    index of an entry that holds the key, or [-1]. *)
Lemma getWorkerId_cases ws k :
  getWorkerId ws k = TypeError ∨ getWorkerId ws k = Ok (first_holder ws k).
Proof.
  unfold getWorkerId, first_holder, hasOwnProperty.
  induction ws as [|w ws IH]; simpl; [by right|].
  destruct (owns w "hasOwnProperty"); [by left|].
  destruct (owns w k); [by right|].
  destruct IH as [-> | ->]; [by left | by right].
Qed.

Lemma getWorkerId_Ok ws k z : getWorkerId ws k = Ok z → z = first_holder ws k.
Proof.
  intros Hz. destruct (getWorkerId_cases ws k) as [H|H]; congruence.
Qed.

(** In a pool where no record shadows the method, the scan never
    throws. *)
Lemma getWorkerId_clean ws k :
  clean ws → getWorkerId ws k = Ok (first_holder ws k).
Proof.
  unfold getWorkerId, first_holder, hasOwnProperty.
  induction ws as [|w ws IH]; simpl; [done|].
  intros [Hw Hc]%clean_cons. rewrite Hw.
  destruct (owns w k); [done|]. by rewrite (IH Hc).
Qed.

(** The scan stops at the first entry that holds the key or shadows the
    method, whichever comes first. *)
Lemma getWorkerId_spec ws k :
  match getWorkerId ws k with
  | Ok z =>
      z = first_holder ws k ∧
      ∀ (j : nat) w, ws !! j = Some w → z < 0 ∨ Z.of_nat j ≤ z →
                     owns w "hasOwnProperty" = false
  | TypeError =>
      ∃ (j : nat) w,
        ws !! j = Some w ∧ owns w "hasOwnProperty" = true ∧
        ∀ (j' : nat) w', (j' < j)%nat → ws !! j' = Some w' →
                         owns w' k = false ∧ owns w' "hasOwnProperty" = false
  end.
Proof.
  unfold getWorkerId, first_holder, hasOwnProperty.
  induction ws as [|w ws IH]; simpl.
  - split; [done|]. intros j w Hw. by rewrite lookup_nil in Hw.
  - destruct (owns w "hasOwnProperty") eqn:Hs.
    { exists 0%nat, w. split; [done|]. split; [done|]. intros; exfalso; lia. }
    destruct (owns w k) eqn:Hk.
    { split; [done|]. intros [|j] w' Hw' Hj; simpl in Hw'; [congruence|lia]. }
    pose proof (first_index_range (λ w, owns w k) ws) as Hr.
    destruct (findIndex _ ws) as [z|].
    + destruct IH as [-> Hclean]. split; [done|].
      intros [|j] w' Hw' Hj; simpl in Hw'; [congruence|].
      apply (Hclean j w' Hw').
      destruct (Z.ltb_spec (first_index (λ w, owns w k) ws) 0); lia.
    + destruct IH as (j & w' & Hw' & Hs' & Hbefore).
      exists (S j), w'. split; [done|]. split; [done|].
      intros [|j'] w'' Hj' Hw''; simpl in Hw''.
      * injection Hw'' as <-. by split.
      * apply (Hbefore j' w''); [lia | done].
Qed.

(** ** The listeners, case by case *)

Lemma on_start_livestream_eq r ws h :
  on_start_livestream r (mkWorld ws h) =
  match h !! r with
  | None => (TypeError, mkWorld ws h, [])
  | Some sd =>
      match getWorkerId ws (deviceId sd) with
      | TypeError => (TypeError, mkWorld ws h, [])
      | Ok found =>
          if found <? 0 then
            match at_index ws (placement ws) with
            | None => (TypeError, mkWorld ws h, [])
            | Some w =>
                (Ok tt,
                 mkWorld (with_sessions ws (placement ws)
                            (set_property (sessions w) (deviceId sd) (mkSession r))) h,
                 [PostMessage (liveCall w) "start" sd])
            end
          else (Ok tt, mkWorld ws h, [])
      end
  end.
Proof.
  run_monad. destruct (h !! r) as [sd|]; simpl; [|done].
  destruct (getWorkerId ws (deviceId sd)) as [found|]; simpl; [|done].
  destruct (found <? 0); simpl; [|done].
  unfold placement. by destruct (at_index ws _).
Qed.

Lemma on_stop_livestream_eq r ws h :
  on_stop_livestream r (mkWorld ws h) =
  match h !! r with
  | None => (TypeError, mkWorld ws h, [])
  | Some sd =>
      match getWorkerId ws (deviceId sd) with
      | TypeError => (TypeError, mkWorld ws h, [])
      | Ok workerId =>
          if workerId >=? 0 then
            match at_index ws workerId with
            | None => (TypeError, mkWorld ws h, [])
            | Some w =>
                match sessions w !! deviceId sd with
                | None => (TypeError, mkWorld ws h, [])
                | Some rec =>
                    match h !! streamData rec with
                    | None => (TypeError, mkWorld ws h, [])
                    | Some stored =>
                        (Ok tt, mkWorld ws h,
                         [PostMessage (liveCall w) "stop" stored])
                    end
                end
            end
          else (Ok tt, mkWorld ws h,
                [Emit ("livestream_" ++ deviceId sd)%string "inactive"])
      end
  end.
Proof.
  run_monad. destruct (h !! r) as [sd|]; simpl; [|done].
  destruct (getWorkerId ws (deviceId sd)) as [workerId|]; simpl; [|done].
  destruct (workerId >=? 0); simpl; [|done].
  destruct (at_index ws _) as [w|]; simpl; [|done].
  destruct (sessions w !! deviceId sd) as [rec|]; simpl; [|done].
  by destruct (h !! streamData rec).
Qed.

(** A status message whose lookup throws. *)
Lemma on_message_throws data ws h :
  getWorkerId ws (LiveCallData.deviceId (liveCallData data)) = TypeError →
  on_message data (mkWorld ws h) = (TypeError, mkWorld ws h, []).
Proof. intros Hget. run_monad. by rewrite Hget. Qed.

(** A status message whose key is found nowhere. *)
Lemma on_message_unknown data ws h z :
  getWorkerId ws (LiveCallData.deviceId (liveCallData data)) = Ok z → z < 0 →
  on_message data (mkWorld ws h) = (Ok tt, mkWorld ws h, []).
Proof.
  intros Hget Hlt. run_monad. rewrite Hget. simpl.
  destruct (Z.geb_spec z 0); [lia | done].
Qed.

(** "active" for a key that is found. *)
Lemma on_message_active data ws h z :
  state data = "active" →
  getWorkerId ws (LiveCallData.deviceId (liveCallData data)) = Ok z → 0 ≤ z →
  let k := LiveCallData.deviceId (liveCallData data) in
  on_message data (mkWorld ws h) =
  match at_index ws z with
  | None => (TypeError, mkWorld ws h, [Emit ("livestream_" ++ k)%string "active"])
  | Some w =>
      match sessions w !! k with
      | None => (TypeError, mkWorld ws h, [Emit ("livestream_" ++ k)%string "active"])
      | Some rec =>
          match h !! streamData rec with
          | None => (TypeError, mkWorld ws h, [Emit ("livestream_" ++ k)%string "active"])
          | Some sd =>
              (Ok tt,
               mkWorld ws (<[streamData rec :=
                               set_sessionId (LiveCallData.sessionId (liveCallData data)) sd]> h),
               [Emit ("livestream_" ++ k)%string "active"])
          end
      end
  end.
Proof.
  intros Hst Hget Hge k. subst k. run_monad.
  set (k := LiveCallData.deviceId (liveCallData data)) in *.
  rewrite Hget. simpl.
  destruct (Z.geb_spec z 0); [|lia].
  rewrite Hst. simpl.
  destruct (at_index ws _) as [w|]; simpl; [|done].
  destruct (sessions w !! k) as [rec|]; simpl; [|done].
  by destruct (h !! streamData rec).
Qed.

(** "inactive" or "failed" for a key that is found. *)
Lemma on_message_terminal data ws h z :
  state data = "inactive" ∨ state data = "failed" →
  getWorkerId ws (LiveCallData.deviceId (liveCallData data)) = Ok z → 0 ≤ z →
  let k := LiveCallData.deviceId (liveCallData data) in
  on_message data (mkWorld ws h) =
  match at_index ws z with
  | None => (TypeError, mkWorld ws h, [Emit ("livestream_" ++ k)%string (state data)])
  | Some w =>
      (Ok tt,
       mkWorld (with_sessions ws z (delete k (sessions w))) h,
       [Emit ("livestream_" ++ k)%string (state data)])
  end.
Proof.
  intros Hst Hget Hge k. subst k. run_monad.
  set (k := LiveCallData.deviceId (liveCallData data)) in *.
  rewrite Hget. simpl.
  destruct (Z.geb_spec z 0); [|lia].
  destruct Hst as [-> | ->]; simpl;
    by destruct (at_index ws _) as [w|].
Qed.

(** Any other [state]: the [switch] has no matching case. *)
Lemma on_message_other data ws h :
  state data ≠ "active" → state data ≠ "inactive" → state data ≠ "failed" →
  on_message data (mkWorld ws h) =
  (match getWorkerId ws (LiveCallData.deviceId (liveCallData data)) with
   | Ok _ => Ok tt
   | TypeError => TypeError
   end, mkWorld ws h, []).
Proof.
  intros H1 H2 H3. run_monad.
  destruct (getWorkerId ws _) as [z|]; simpl; [|done].
  destruct (z >=? 0); [|done].
  apply String.eqb_neq in H1, H2, H3. by rewrite H1, H2, H3.
Qed.

(** ** Every event is one of five changes *)

Lemma at_index_Some {A} (l : list A) (i : Z) (x : A) :
  at_index l i = Some x → ∃ n : nat, i = Z.of_nat n ∧ l !! n = Some x.
Proof.
  unfold at_index. destruct (Z.ltb_spec i 0); [done|].
  intros Hx. exists (Z.to_nat i). split; [lia | done].
Qed.

Lemma with_sessions_lookup ws (i j : nat) m :
  with_sessions ws (Z.of_nat i) m !! j =
  if decide (i = j)
  then (λ w, {| liveCall := liveCall w; sessions := m |}) <$> ws !! i
  else ws !! j.
Proof.
  unfold with_sessions. rewrite Nat2Z.id.
  destruct (decide (i = j)) as [->|Hne].
  - apply list_lookup_alter_eq.
  - by apply list_lookup_alter_ne.
Qed.

Lemma with_sessions_id ws (i : nat) w :
  ws !! i = Some w → with_sessions ws (Z.of_nat i) (sessions w) = ws.
Proof.
  intros Hw. apply list_eq. intros j. rewrite with_sessions_lookup.
  destruct (decide (i = j)) as [<-|]; [|done].
  rewrite Hw. simpl. by destruct w.
Qed.

Lemma set_property_proto m rec : set_property m "__proto__" rec = m.
Proof. done. Qed.

Lemma set_property_plain m k rec :
  k ≠ "__proto__" → set_property m k rec = <[k := rec]> m.
Proof. intros Hk. unfold set_property. by rewrite decide_False. Qed.

Lemma handle_change ev s : world_change s ev (world_of (handle ev s)).
Proof.
  destruct s as [ws h]. destruct ev as [r|r|data|r sd]; simpl.
  - rewrite on_start_livestream_eq.
    destruct (h !! r) as [sd|] eqn:Hr; [|constructor].
    destruct (getWorkerId_cases ws (deviceId sd)) as [-> | ->]; [constructor|].
    destruct (Z.ltb_spec (first_holder ws (deviceId sd)) 0) as [Hlt|]; [|constructor].
    destruct (at_index ws (placement ws)) as [w|] eqn:Hw; [|constructor].
    apply at_index_Some in Hw as (i & -> & Hw).
    destruct (decide (deviceId sd = "__proto__")) as [Hp|Hp].
    + rewrite Hp, set_property_proto, (with_sessions_id ws i w Hw). constructor.
    + rewrite set_property_plain by done.
      apply (change_insert (mkWorld ws h) i w r sd); simpl; auto.
      by apply first_holder_none.
  - rewrite on_stop_livestream_eq.
    destruct (h !! r) as [sd|]; [|constructor].
    destruct (getWorkerId ws (deviceId sd)) as [z|]; [|constructor].
    destruct (_ >=? 0); [|constructor].
    destruct (at_index ws _) as [w|]; [|constructor].
    destruct (sessions w !! deviceId sd) as [rec|]; [|constructor].
    destruct (h !! streamData rec); constructor.
  - set (k := LiveCallData.deviceId (liveCallData data)).
    destruct (getWorkerId ws k) as [z|] eqn:Hget.
    2: { rewrite on_message_throws by done. constructor. }
    destruct (Z.ltb_spec z 0) as [Hlt|Hge].
    { rewrite (on_message_unknown data ws h z) by done. constructor. }
    destruct (decide (state data = "active")) as [Ha|Ha].
    { rewrite (on_message_active data ws h z) by done. simpl. fold k.
      destruct (at_index ws _) as [w|] eqn:Hw; [|constructor].
      apply at_index_Some in Hw as (i & _ & Hw).
      destruct (sessions w !! k) as [rec|] eqn:Hrec; [|constructor].
      destruct (h !! streamData rec) as [sd|] eqn:Hsd; [|constructor].
      apply (change_active (mkWorld ws h) i w data rec sd); auto. }
    destruct (decide (state data = "inactive")) as [Hi|Hi];
      [|destruct (decide (state data = "failed")) as [Hf|Hf]].
    3: { rewrite on_message_other by done. constructor. }
    all: rewrite (on_message_terminal data ws h z) by auto; simpl; fold k;
      destruct (at_index ws _) as [w|] eqn:Hw; [|constructor];
      apply at_index_Some in Hw as (i & -> & Hw);
      apply (change_delete (mkWorld ws h) i w data Hw); auto.
  - apply (change_caller (mkWorld ws h)).
Qed.
(** ** Invariants *)

Lemma holds_with_sessions ws (i j : nat) w m k :
  ws !! i = Some w →
  holds (with_sessions ws (Z.of_nat i) m) j k ↔
  (i = j ∧ is_Some (m !! k)) ∨ (i ≠ j ∧ holds ws j k).
Proof.
  intros Hw. unfold holds. rewrite with_sessions_lookup.
  destruct (decide (i = j)) as [<-|Hne].
  - rewrite Hw. simpl. split.
    + intros (w' & [= <-] & Hk). by left.
    + intros [[_ Hk]|[Hne _]]; [|done]. eauto.
  - split; [by right | by intros [[? _]|[_ ?]]].
Qed.

Lemma world_change_unique s ev s' :
  world_change s ev s' →
  unique_owner (streamWorkers s) → unique_owner (streamWorkers s').
Proof.
  intros Hc Hu.
  destruct Hc as [|i w r sd Hw Hr Hfree|i w data Hw| |]; simpl; auto.
  - intros a b k Ha Hb.
    apply (holds_with_sessions _ _ _ _ _ _ Hw) in Ha, Hb.
    destruct Ha as [[<- Ha]|[Hia Ha]], Hb as [[<- Hb]|[Hib Hb]]; auto.
    + destruct (decide (k = deviceId sd)) as [->|Hk].
      * destruct Hfree. by exists b.
      * rewrite lookup_insert_ne in Ha by done.
        apply (Hu i b k); [by exists w | done].
    + destruct (decide (k = deviceId sd)) as [->|Hk].
      * destruct Hfree. by exists a.
      * rewrite lookup_insert_ne in Hb by done.
        apply (Hu a i k); [done | by exists w].
    + by apply (Hu a b k).
  - set (k := LiveCallData.deviceId (liveCallData data)).
    intros a b k' Ha Hb.
    apply (holds_with_sessions _ _ _ _ _ _ Hw) in Ha, Hb.
    assert (is_Some (delete k (sessions w) !! k') → holds (streamWorkers s) i k')
      as Hdel.
    { intros Hs. exists w. split; [done|].
      destruct (decide (k = k')) as [->|Hne].
      - rewrite lookup_delete_eq in Hs. by destruct Hs.
      - by rewrite lookup_delete_ne in Hs. }
    destruct Ha as [[<- Ha]|[Hia Ha]], Hb as [[<- Hb]|[Hib Hb]]; auto.
    + apply (Hu i b k'); [by apply Hdel | done].
    + apply (Hu a i k'); [done | by apply Hdel].
    + by apply (Hu a b k').
Qed.

Lemma spawn_lookup n (i : nat) w :
  spawn n !! i = Some w → w = {| liveCall := i; sessions := ∅ |}.
Proof.
  unfold spawn. rewrite list_lookup_fmap.
  destruct (seq 0 n !! i) as [j|] eqn:Hj; simpl; [|done].
  apply lookup_seq in Hj as [-> _]. by intros [= <-].
Qed.

Lemma spawn_length n : length (spawn n) = n.
Proof. unfold spawn. by rewrite length_map, length_seq. Qed.

Lemma init_unique cpuCores : unique_owner (streamWorkers (init cpuCores)).
Proof.
  intros i j k (w & Hw & Hk) _. simpl in Hw.
  apply spawn_lookup in Hw as ->. simpl in Hk.
  rewrite lookup_empty in Hk. by destruct Hk.
Qed.

Lemma reachable_unique cpuCores s :
  reachable cpuCores s → unique_owner (streamWorkers s).
Proof.
  induction 1 as [|s ev _ IH]; [apply init_unique|].
  by apply (world_change_unique s ev), IH; [apply handle_change].
Qed.

Lemma heap_insert_allocated ws h r sd :
  records_allocated (mkWorld ws h) → records_allocated (mkWorld ws (<[r := sd]> h)).
Proof.
  intros Ha j w' k rec Hj Hk. simpl in *.
  destruct (decide (r = streamData rec)) as [->|Hne].
  - rewrite lookup_insert_eq. eauto.
  - rewrite lookup_insert_ne by done. by apply (Ha j w' k rec).
Qed.

Lemma world_change_allocated s ev s' :
  world_change s ev s' → records_allocated s → records_allocated s'.
Proof.
  intros Hc Ha.
  destruct Hc as [|i w r sd Hw Hr Hfree|i w data Hw|i w data rec0 sd0 _ _ _|r sd];
    auto.
  - intros j w' k rec Hj Hk. simpl in *.
    rewrite with_sessions_lookup in Hj.
    destruct (decide (i = j)) as [<-|Hne]; [|by apply (Ha j w' k rec)].
    rewrite Hw in Hj. injection Hj as <-. simpl in Hk.
    destruct (decide (deviceId sd = k)) as [<-|Hk'].
    + rewrite lookup_insert_eq in Hk. injection Hk as <-. simpl. eauto.
    + rewrite lookup_insert_ne in Hk by done. by apply (Ha i w k rec).
  - intros j w' k' rec Hj Hk. simpl in *.
    rewrite with_sessions_lookup in Hj.
    destruct (decide (i = j)) as [<-|Hne]; [|by apply (Ha j w' k' rec)].
    rewrite Hw in Hj. injection Hj as <-. simpl in Hk.
    apply lookup_delete_Some in Hk as [_ Hk]. by apply (Ha i w k' rec).
  - destruct s. by apply heap_insert_allocated.
  - destruct s. by apply heap_insert_allocated.
Qed.

Lemma reachable_allocated cpuCores s : reachable cpuCores s → records_allocated s.
Proof.
  induction 1 as [|s ev _ IH].
  - intros i w k rec Hw Hk. simpl in Hw. apply spawn_lookup in Hw as ->.
    simpl in Hk. by rewrite lookup_empty in Hk.
  - by apply (world_change_allocated s ev), IH; [apply handle_change].
Qed.

Lemma with_sessions_shape n ws i m :
  pool_shape n ws → pool_shape n (with_sessions ws (Z.of_nat i) m).
Proof.
  intros [Hlen Hth]. split.
  - unfold with_sessions. by rewrite length_alter.
  - intros j w. rewrite with_sessions_lookup.
    destruct (decide (i = j)) as [<-|Hne]; [|apply Hth].
    destruct (ws !! i) as [w0|] eqn:Hw0; simpl; [|done].
    intros [= <-]. simpl. by apply Hth.
Qed.

Lemma reachable_shape cpuCores s :
  reachable cpuCores s →
  pool_shape (Z.to_nat (numWorkers cpuCores)) (streamWorkers s).
Proof.
  induction 1 as [|s ev _ IH].
  - split; simpl; [apply spawn_length|].
    intros i w Hw. by apply spawn_lookup in Hw as ->.
  - destruct (handle_change ev s); simpl; auto using with_sessions_shape.
Qed.

(** ** Counting the registries that hold a key *)

Lemma entries_cons w ws k :
  entries (w :: ws) k =
  ((if owns w k then 1 else 0) + entries ws k)%nat.
Proof.
  unfold entries. rewrite filter_cons.
  destruct (decide (owns w k = true)) as [->|Hn]; [done|].
  apply not_true_is_false in Hn. by rewrite Hn.
Qed.

Lemma entries_zero ws k : entries ws k = 0%nat ↔ ¬ registered ws k.
Proof.
  induction ws as [|w ws IH].
  - split; [|done]. intros _ (i & w & Hw & _). by rewrite lookup_nil in Hw.
  - rewrite entries_cons. destruct (owns w k) eqn:Hk.
    + split; [lia|]. intros []. exists 0%nat, w. split; [done|].
      by apply owns_true.
    + simpl. rewrite IH. apply owns_false in Hk. split.
      * intros Hn ([|i] & w' & Hw' & Hk'); simpl in Hw'.
        -- injection Hw' as <-. rewrite Hk in Hk'. by destruct Hk'.
        -- apply Hn. by exists i, w'.
      * intros Hn (i & w' & Hw' & Hk'). apply Hn. by exists (S i), w'.
Qed.

Lemma unique_owner_tail w ws : unique_owner (w :: ws) → unique_owner ws.
Proof.
  intros Hu i j k (wi & Hi & Hki) (wj & Hj & Hkj).
  assert (S i = S j) as [= ->]; [|done].
  apply (Hu (S i) (S j) k); [by exists wi | by exists wj].
Qed.

Lemma entries_unique ws k : unique_owner ws → (entries ws k ≤ 1)%nat.
Proof.
  induction ws as [|w ws IH]; intros Hu; [unfold entries; simpl; lia|].
  rewrite entries_cons. specialize (IH (unique_owner_tail _ _ Hu)).
  destruct (owns w k) eqn:Hk; [|simpl; lia].
  assert (entries ws k = 0%nat) as ->; [|lia].
  apply entries_zero. intros (i & w' & Hw' & Hk').
  assert (0%nat = S i); [|done].
  apply (Hu 0%nat (S i) k); [|by exists w'].
  exists w. split; [done|]. by apply owns_true.
Qed.

Lemma entries_registered ws k :
  unique_owner ws → registered ws k → entries ws k = 1%nat.
Proof.
  intros Hu Hr. pose proof (entries_unique ws k Hu).
  destruct (entries ws k) as [|[|n]] eqn:He; [|done|lia].
  by apply entries_zero in He.
Qed.

(** ** Pool sizing *)

Lemma Math_round_cores (c : Z) : Math_round (cores_over_1_5 c) = (4 * c + 3) / 6.
Proof.
  transitivity ((c * 10 * 10 + 75) / 150); [reflexivity|].
  Z.div_mod_to_equations. lia.
Qed.

Lemma init_length (c : Z) :
  Z.of_nat (length (streamWorkers (init c))) = Z.max 0 (numWorkers c).
Proof. simpl. rewrite spawn_length. lia. Qed.

(** C3, as stated, fails on a host with five cores: the guard
    [cpuCores > 4] yields four workers, while [min(4, round(5/1.5))]
    is [min(4, 3) = 3]. *)
Lemma numWorkers_five_cores :
  1 ≤ 5 ∧
  Z.of_nat (length (streamWorkers (init 5))) = 4 ∧
  spec_numWorkers 5 = 3 ∧
  Z.of_nat (length (streamWorkers (init 5))) ≠ spec_numWorkers 5.
Proof. vm_compute. repeat split; congruence. Qed.

(** C3 (amended): for every core count [c ≥ 1] the number of workers
    spawned by [init] is 4 when [c > 4] and [round(c/1.5)] otherwise; it
    agrees with [min(4, round(c/1.5))] for every [c] other than 5, and it
    lies between 1 and 4. *)
Theorem numWorkers_spawned (c : Z) :
  1 ≤ c →
  let N := Z.of_nat (length (streamWorkers (init c))) in
  N = (if decide (4 < c) then 4 else Math_round (cores_over_1_5 c)) ∧
  (c ≠ 5 → N = spec_numWorkers c) ∧
  1 ≤ N ≤ 4.
Proof.
  intros Hc N. subst N. rewrite init_length.
  unfold spec_numWorkers, numWorkers. rewrite Math_round_cores.
  destruct (Z.gtb_spec c 4) as [Hgt|Hle], (decide (4 < c)) as [Hd|Hd]; try lia.
  - split; [lia|]. split; [|lia]. intros Hne.
    assert (4 ≤ (4 * c + 3) / 6) by (apply Z.div_le_lower_bound; lia). lia.
  - assert (c = 1 ∨ c = 2 ∨ c = 3 ∨ c = 4) as Hcases by lia.
    destruct Hcases as [-> | [-> | [-> | ->]]]; vm_compute; repeat split; congruence.
Qed.

Lemma numWorkers_spawned_witness :
  let N := Z.of_nat (length (streamWorkers (init 3))) in
  N = 2 ∧ (3 ≠ 5 → N = spec_numWorkers 3) ∧ 1 ≤ N ≤ 4.
Proof. apply (numWorkers_spawned 3). lia. Defined.

(** ** Placement *)

Lemma placement_spec (ws : list worker) :
  ws ≠ [] →
  ∃ (i : nat) w,
    placement ws = Z.of_nat i ∧ ws !! i = Some w ∧
    (∀ j w', ws !! j = Some w' → (size (sessions w) ≤ size (sessions w'))%nat) ∧
    (∀ j w', (j < i)%nat → ws !! j = Some w' →
             (size (sessions w) < size (sessions w'))%nat).
Proof.
  intros Hne.
  destruct (indexOf_Math_min (map keys_length ws)) as (i & m & Hi & Hm & Hle & Hlt).
  { by destruct ws. }
  rewrite list_lookup_fmap in Hm.
  destruct (ws !! i) as [w|] eqn:Hw; simpl in Hm; [|done].
  injection Hm as <-. exists i, w. repeat split; auto.
  - intros j w' Hj. specialize (Hle j (keys_length w')).
    rewrite list_lookup_fmap, Hj in Hle. specialize (Hle eq_refl).
    unfold keys_length in Hle. lia.
  - intros j w' Hji Hj. specialize (Hlt j (keys_length w') Hji).
    rewrite list_lookup_fmap, Hj in Hlt. specialize (Hlt eq_refl).
    unfold keys_length in Hlt. lia.
Qed.

Lemma placement_empty : placement [] = -1.
Proof. reflexivity. Qed.

Lemma start_registered ws h r sd z :
  h !! r = Some sd → getWorkerId ws (deviceId sd) = Ok z → 0 ≤ z →
  on_start_livestream r (mkWorld ws h) = (Ok tt, mkWorld ws h, []).
Proof.
  intros Hr Hget Hz. rewrite on_start_livestream_eq, Hr, Hget.
  destruct (Z.ltb_spec z 0); [lia | done].
Qed.

Lemma start_fresh ws h r sd z :
  h !! r = Some sd → getWorkerId ws (deviceId sd) = Ok z → z < 0 → ws ≠ [] →
  ∃ (i : nat) w,
    ws !! i = Some w ∧
    (∀ j w', ws !! j = Some w' → (size (sessions w) ≤ size (sessions w'))%nat) ∧
    (∀ j w', (j < i)%nat → ws !! j = Some w' →
             (size (sessions w) < size (sessions w'))%nat) ∧
    on_start_livestream r (mkWorld ws h) =
      (Ok tt,
       mkWorld (with_sessions ws (Z.of_nat i)
                  (set_property (sessions w) (deviceId sd) (mkSession r))) h,
       [PostMessage (liveCall w) "start" sd]).
Proof.
  intros Hr Hget Hz Hne.
  destruct (placement_spec ws Hne) as (i & w & Hi & Hw & Hle & Hlt).
  exists i, w. repeat split; auto.
  rewrite on_start_livestream_eq, Hr, Hget.
  destruct (Z.ltb_spec z 0); [|lia].
  by rewrite Hi, at_index_nat, Hw.
Qed.

(** The lookup of an unregistered key in a pool without shadowed
    method. *)
Lemma getWorkerId_unregistered ws k :
  clean ws → ¬ registered ws k →
  ∃ z, getWorkerId ws k = Ok z ∧ z < 0.
Proof.
  intros Hc Hk. exists (first_holder ws k).
  split; [by apply getWorkerId_clean | by apply first_holder_none].
Qed.

Lemma getWorkerId_registered ws k :
  clean ws → registered ws k →
  ∃ z, getWorkerId ws k = Ok z ∧ 0 ≤ z.
Proof.
  intros Hc Hk. exists (first_holder ws k).
  split; [by apply getWorkerId_clean | by apply first_holder_registered].
Qed.

(** C2, as stated, fails in two ways.  Once a session with device id
    ["hasOwnProperty"] is registered, a start request for a key that is
    registered nowhere (B) throws in the lookup: nothing is recorded and
    no command is posted.  And a start request for ["__proto__"] gets its
    command posted but leaves every registry as it was. *)
Lemma start_not_assigned :
  streamWorkers shadow_world ≠ [] ∧
  heap shadow_world !! 2%nat = Some (payload "B") ∧
  entries (streamWorkers shadow_world) "B" = 0%nat ∧
  on_start_livestream 2%nat shadow_world = (TypeError, shadow_world, []) ∧
  heap proto_world !! 3%nat = Some (payload "__proto__") ∧
  entries (streamWorkers proto_world) "__proto__" = 0%nat ∧
  on_start_livestream 3%nat proto_world =
    (Ok tt, proto_world, [PostMessage 0 "start" (payload "__proto__")]).
Proof. vm_compute. repeat split; congruence. Qed.

(** C2 (amended): in any pool state with at least one worker in which no
    registry holds a record under the key ["hasOwnProperty"], a
    [start_livestream] request whose key is registered nowhere and is not
    ["__proto__"] is recorded in the registry of a worker whose registry
    is no larger than any other's, the one with the lowest index among
    those of least size, and the "start" command carrying the payload goes
    to that worker's thread. *)
Theorem start_least_loaded ws h r sd :
  ws ≠ [] → clean ws → h !! r = Some sd →
  ¬ registered ws (deviceId sd) → deviceId sd ≠ "__proto__" →
  ∃ (i : nat) w,
    ws !! i = Some w ∧
    (∀ j w', ws !! j = Some w' → (size (sessions w) ≤ size (sessions w'))%nat) ∧
    (∀ j w', (j < i)%nat → ws !! j = Some w' →
             (size (sessions w) < size (sessions w'))%nat) ∧
    result_of (on_start_livestream r (mkWorld ws h)) = Ok tt ∧
    effects_of (on_start_livestream r (mkWorld ws h)) =
      [PostMessage (liveCall w) "start" sd] ∧
    let ws' := streamWorkers (world_of (on_start_livestream r (mkWorld ws h))) in
    ws' !! i = Some {| liveCall := liveCall w;
                       sessions := <[deviceId sd := mkSession r]> (sessions w) |} ∧
    (∀ j, j ≠ i → ws' !! j = ws !! j) ∧
    (∀ j, holds ws' j (deviceId sd) ↔ j = i).
Proof.
  intros Hne Hc Hr Hk Hp.
  destruct (getWorkerId_unregistered ws _ Hc Hk) as (z & Hget & Hz).
  destruct (start_fresh ws h r sd z Hr Hget Hz Hne) as (i & w & Hw & Hle & Hlt & ->).
  rewrite set_property_plain by done.
  exists i, w. repeat split; auto; simpl.
  - by rewrite with_sessions_lookup, decide_True, Hw.
  - intros j Hj. by rewrite with_sessions_lookup, decide_False.
  - intros Hj. apply (holds_with_sessions _ _ _ _ _ _ Hw) in Hj.
    destruct Hj as [[<- _]|[_ Hj]]; [done|]. destruct Hk. by exists j.
  - intros ->. apply (holds_with_sessions _ _ _ _ _ _ Hw). left.
    split; [done|]. rewrite lookup_insert_eq. eauto.
Qed.

Lemma numWorkers_pos (c : Z) : 1 ≤ c → 1 ≤ numWorkers c ≤ 4.
Proof.
  intros Hc. unfold numWorkers. rewrite Math_round_cores.
  destruct (Z.gtb_spec c 4); [lia|].
  Z.div_mod_to_equations. lia.
Qed.

Lemma reachable_nonempty c s :
  1 ≤ c → reachable c s → streamWorkers s ≠ [].
Proof.
  intros Hc Hs. destruct (reachable_shape c s Hs) as [Hlen _].
  pose proof (numWorkers_pos c Hc). intros Hnil. rewrite Hnil in Hlen.
  simpl in Hlen. lia.
Qed.

Lemma run_reachable c evs s : reachable c s → reachable c (run evs s).1.
Proof.
  revert s. induction evs as [|ev evs IH]; intros s Hs; [done|].
  simpl. apply IH. by constructor.
Qed.

(** On an empty pool the placement code finds no entry to write to. *)
(** On an empty pool the placement code finds no entry to write to. *)
Lemma start_empty_pool h r sd :
  h !! r = Some sd →
  on_start_livestream r (mkWorld [] h) = (TypeError, mkWorld [] h, []).
Proof. intros Hr. by rewrite on_start_livestream_eq, Hr. Qed.

(** ** Stop requests and status reports *)

(** C5, as stated, fails once a session with device id ["hasOwnProperty"]
    is registered: a stop request for a key that is registered nowhere (B)
    throws in the lookup, and no "inactive" event is emitted. *)
Lemma stop_unknown_key_throws :
  heap shadow_world !! 2%nat = Some (payload "B") ∧
  entries (streamWorkers shadow_world) "B" = 0%nat ∧
  on_stop_livestream 2%nat shadow_world = (TypeError, shadow_world, []).
Proof. vm_compute. repeat split; congruence. Qed.

(** C5 (amended): in any pool state in which no registry holds a record
    under the key ["hasOwnProperty"], a [stop_livestream] request whose
    key is registered on no worker emits exactly one event, "inactive" on
    the topic of that key, posts no command and leaves every registry (the
    whole state) as it was. *)
Theorem stop_unknown_key ws h r sd :
  clean ws → h !! r = Some sd → ¬ registered ws (deviceId sd) →
  on_stop_livestream r (mkWorld ws h) =
    (Ok tt, mkWorld ws h,
     [Emit ("livestream_" ++ deviceId sd)%string "inactive"]).
Proof.
  intros Hc Hr Hk. rewrite on_stop_livestream_eq, Hr.
  destruct (getWorkerId_unregistered ws _ Hc Hk) as (z & -> & Hz).
  destruct (Z.geb_spec z 0); [lia | done].
Qed.



Lemma owner_index ws (i : nat) w k z :
  unique_owner ws → getWorkerId ws k = Ok z →
  ws !! i = Some w → is_Some (sessions w !! k) →
  z = Z.of_nat i.
Proof.
  intros Hu Hget Hw Hk. rewrite (getWorkerId_Ok _ _ _ Hget).
  apply first_holder_owner; [done | by exists w].
Qed.

Lemma clean_scan_reaches ws i : clean ws → scan_reaches ws i.
Proof. intros Hc j _ Hj. apply Hc. by exists j. Qed.

(** The lookup of a key finds its owner when the scan reaches it. *)
Lemma getWorkerId_owner ws k (i : nat) w :
  unique_owner ws → scan_reaches ws i →
  ws !! i = Some w → is_Some (sessions w !! k) →
  getWorkerId ws k = Ok (Z.of_nat i).
Proof.
  intros Hu Hreach Hw Hk. pose proof (getWorkerId_spec ws k) as Hspec.
  destruct (getWorkerId ws k) as [z|] eqn:Hget.
  - f_equal. apply (owner_index ws i w k z Hu); [|done..].
    by rewrite <- Hget.
  - destruct Hspec as (j & wj & Hwj & Hs & Hbefore).
    destruct (decide (j ≤ i)%nat) as [Hle|Hgt].
    + destruct (Hreach j Hle). exists wj. split; [done|]. by apply owns_true.
    + destruct (Hbefore i w) as [Hno _]; [lia | done |].
      apply owns_false in Hno. rewrite Hno in Hk. by destruct Hk.
Qed.

Lemma terminal_report ws h data (i : nat) w z :
  let k := LiveCallData.deviceId (liveCallData data) in
  unique_owner ws → getWorkerId ws k = Ok z →
  ws !! i = Some w → is_Some (sessions w !! k) →
  state data = "inactive" ∨ state data = "failed" →
  on_message data (mkWorld ws h) =
    (Ok tt,
     mkWorld (with_sessions ws (Z.of_nat i) (delete k (sessions w))) h,
     [Emit ("livestream_" ++ k)%string (state data)]).
Proof.
  intros k Hu Hget Hw Hk Hst. subst k.
  set (k := LiveCallData.deviceId (liveCallData data)) in *.
  pose proof (owner_index ws i w k z Hu Hget Hw Hk) as ->.
  rewrite (on_message_terminal data ws h (Z.of_nat i)) by (auto; lia).
  simpl. fold k. by rewrite at_index_nat, Hw.
Qed.

Lemma delete_unregisters ws (i : nat) w k :
  unique_owner ws → ws !! i = Some w → is_Some (sessions w !! k) →
  ¬ registered (with_sessions ws (Z.of_nat i) (delete k (sessions w))) k.
Proof.
  intros Hu Hw Hk (j & Hj).
  apply (holds_with_sessions _ _ _ _ _ _ Hw) in Hj as [[_ Hd]|[Hne Hj]].
  - rewrite lookup_delete_eq in Hd. by destruct Hd.
  - apply Hne. apply (Hu i j k); [by exists w | done].
Qed.

Lemma entry_with_sessions ws (i j : nat) w m k :
  ws !! i = Some w →
  entry (with_sessions ws (Z.of_nat i) m) j k =
  if decide (i = j) then m !! k else entry ws j k.
Proof.
  intros Hw. unfold entry. rewrite with_sessions_lookup.
  destruct (decide (i = j)); [by rewrite Hw | done].
Qed.

(** C7, as stated, fails once a session with device id ["hasOwnProperty"]
    is registered: an "inactive" message for that key, which worker 0
    holds, throws in the lookup; no event is emitted and the record
    stays. *)
Lemma terminal_report_throws :
  entry (streamWorkers shadow_world) 0 "hasOwnProperty" = Some (mkSession 1) ∧
  on_message (report "inactive" "hasOwnProperty" None) shadow_world =
    (TypeError, shadow_world, []).
Proof. vm_compute. split; congruence. Qed.

(** C7 (amended): in a reachable state, a status message with state
    "inactive" or "failed" whose key [k] is held by worker entry [i], when
    no entry up to [i] has a record under the key ["hasOwnProperty"] (the
    lookup reaches the owner), runs to completion, emits exactly one event, that state on the topic of
    [k], posts no command, and deletes [k] from the registry of entry [i]:
    every other entry of every registry, and every payload, is unchanged,
    and [k] is then registered nowhere in the pool. *)
Theorem terminal_report_removes c s data (i : nat) w :
  reachable c s →
  scan_reaches (streamWorkers s) i →
  streamWorkers s !! i = Some w →
  is_Some (sessions w !! LiveCallData.deviceId (liveCallData data)) →
  state data = "inactive" ∨ state data = "failed" →
  let k := LiveCallData.deviceId (liveCallData data) in
  let x := on_message data s in
  result_of x = Ok tt ∧
  effects_of x = [Emit ("livestream_" ++ k)%string (state data)] ∧
  heap (world_of x) = heap s ∧
  entry (streamWorkers (world_of x)) i k = None ∧
  (∀ j k', (j, k') ≠ (i, k) →
     entry (streamWorkers (world_of x)) j k' = entry (streamWorkers s) j k') ∧
  (∀ j w', streamWorkers s !! j = Some w' →
     liveCall <$> streamWorkers (world_of x) !! j = Some (liveCall w')) ∧
  ¬ registered (streamWorkers (world_of x)) k.
Proof.
  intros Hs Hc Hw Hk Hst k x. subst x.
  pose proof (reachable_unique c s Hs) as Hu.
  destruct s as [ws h]. simpl in *.
  rewrite (terminal_report ws h data i w _ Hu
             (getWorkerId_owner ws _ i w Hu Hc Hw Hk) Hw Hk Hst).
  fold k. simpl.
  repeat split; auto.
  - rewrite (entry_with_sessions _ _ _ _ _ _ Hw), decide_True by done.
    apply lookup_delete_eq.
  - intros j k' Hne. rewrite (entry_with_sessions _ _ _ _ _ _ Hw).
    destruct (decide (i = j)) as [<-|]; [|done].
    unfold entry. rewrite Hw. simpl. apply lookup_delete_ne. congruence.
  - intros j w' Hj. rewrite with_sessions_lookup.
    destruct (decide (i = j)) as [<-|]; [|by rewrite Hj].
    rewrite Hw in *. by injection Hj as <-.
  - by apply delete_unregisters.
Qed.

Lemma active_report ws h data (i : nat) w rec sd z :
  let k := LiveCallData.deviceId (liveCallData data) in
  unique_owner ws → getWorkerId ws k = Ok z →
  ws !! i = Some w → sessions w !! k = Some rec →
  h !! streamData rec = Some sd →
  state data = "active" →
  on_message data (mkWorld ws h) =
    (Ok tt,
     mkWorld ws (<[streamData rec :=
                     set_sessionId (LiveCallData.sessionId (liveCallData data)) sd]> h),
     [Emit ("livestream_" ++ k)%string "active"]).
Proof.
  intros k Hu Hget Hw Hk Hr Hst. subst k.
  set (k := LiveCallData.deviceId (liveCallData data)) in *.
  assert (z = Z.of_nat i) as ->.
  { apply (owner_index ws i w k z Hu Hget Hw). by rewrite Hk. }
  rewrite (on_message_active data ws h (Z.of_nat i)) by (auto; lia).
  simpl. fold k. by rewrite at_index_nat, Hw, Hk, Hr.
Qed.

(** C8, as stated, fails once a session with device id ["hasOwnProperty"]
    is registered: an "active" message for that key, which worker 0 holds,
    throws in the lookup; no event is emitted and no session id is
    stored. *)
Lemma active_report_throws :
  entry (streamWorkers shadow_world) 0 "hasOwnProperty" = Some (mkSession 1) ∧
  on_message (report "active" "hasOwnProperty" (Some "s-1")) shadow_world =
    (TypeError, shadow_world, []).
Proof. vm_compute. split; congruence. Qed.

(** C8 (amended): in a reachable state, a status message with state
    "active" whose key [k] is held by worker entry [i], when no entry up
    to [i] has a record under the key ["hasOwnProperty"] (the lookup
    reaches the owner), runs to completion, emits
    exactly one event, "active" on the topic of [k], posts no command, and
    writes the [sessionId] of the message into the payload object of
    [k]'s record, whose other fields keep their values.  No registry
    changes ([k]'s record stays where it is) and no other payload object
    changes. *)
Theorem active_report_records_session c s data (i : nat) w :
  reachable c s →
  scan_reaches (streamWorkers s) i →
  streamWorkers s !! i = Some w →
  is_Some (sessions w !! LiveCallData.deviceId (liveCallData data)) →
  state data = "active" →
  let k := LiveCallData.deviceId (liveCallData data) in
  let x := on_message data s in
  result_of x = Ok tt ∧
  effects_of x = [Emit ("livestream_" ++ k)%string "active"] ∧
  streamWorkers (world_of x) = streamWorkers s ∧
  ∃ rec sd,
    entry (streamWorkers (world_of x)) i k = Some rec ∧
    heap s !! streamData rec = Some sd ∧
    heap (world_of x) !! streamData rec =
      Some {| deviceId := deviceId sd; deviceName := deviceName sd;
              sessionId := LiveCallData.sessionId (liveCallData data);
              params := params sd |} ∧
    ∀ r, r ≠ streamData rec → heap (world_of x) !! r = heap s !! r.
Proof.
  intros Hs Hc Hw Hk0 Hst k x. subst x. pose proof Hk0 as [rec Hk].
  pose proof (reachable_unique c s Hs) as Hu.
  destruct (reachable_allocated c s Hs i w k rec Hw Hk) as [sd Hsd].
  destruct s as [ws h]. simpl in *.
  rewrite (active_report ws h data i w rec sd _ Hu
             (getWorkerId_owner ws _ i w Hu Hc Hw Hk0) Hw Hk Hsd Hst).
  fold k. simpl.
  repeat split; auto. exists rec, sd. repeat split; auto.
  - unfold entry. by rewrite Hw.
  - by rewrite lookup_insert_eq.
  - intros r Hne. by rewrite lookup_insert_ne.
Qed.
(** ** Histories *)

Lemma run_app evs1 evs2 s :
  run (evs1 ++ evs2) s =
  ((run evs2 (run evs1 s).1).1, (run evs1 s).2 ++ (run evs2 (run evs1 s).1).2).
Proof.
  revert s. induction evs1 as [|ev evs1 IH]; intros s; simpl.
  - by destruct (run evs2 s).
  - rewrite IH. simpl. by rewrite app_assoc.
Qed.

Lemma after_snoc c evs ev :
  after c (evs ++ [ev]) = world_of (handle ev (after c evs)).
Proof. unfold after. by rewrite run_app. Qed.

Lemma after_reachable c evs : reachable c (after c evs).
Proof. apply run_reachable. constructor. Qed.

Lemma reachable_after c s : reachable c s → ∃ evs, s = after c evs.
Proof.
  induction 1 as [|s ev _ [evs ->]].
  - by exists [].
  - exists (evs ++ [ev]). by rewrite after_snoc.
Qed.

Lemma has_record_registered ws k rec : has_record ws k rec → registered ws k.
Proof.
  intros [i Hi]. exists i. unfold entry in Hi.
  destruct (ws !! i) as [w|] eqn:Hw; simpl in Hi; [|done].
  exists w. by rewrite Hi.
Qed.

(** A record present after an event was there before, or the event is the
    accepted start request that created it. *)
Lemma record_origin s ev s' k rec :
  world_change s ev s' →
  has_record (streamWorkers s') k rec →
  has_record (streamWorkers s) k rec ∨
  (ev = start_livestream (streamData rec) ∧ accepted s (streamData rec) k).
Proof.
  intros Hc [j Hj].
  destruct Hc as [|i w r sd Hw Hr Hfree|i w data Hw| |]; simpl in *;
    try (left; by exists j).
  - rewrite (entry_with_sessions _ _ _ _ _ _ Hw) in Hj.
    destruct (decide (i = j)) as [<-|]; [|left; by exists j].
    destruct (decide (deviceId sd = k)) as [<-|Hne].
    + rewrite lookup_insert_eq in Hj. injection Hj as <-. simpl.
      right. split; [done|]. by exists sd.
    + rewrite lookup_insert_ne in Hj by done. left. exists i.
      unfold entry. by rewrite Hw.
  - rewrite (entry_with_sessions _ _ _ _ _ _ Hw) in Hj.
    destruct (decide (i = j)) as [<-|]; [|left; by exists j].
    apply lookup_delete_Some in Hj as [_ Hj]. left. exists i.
    unfold entry. by rewrite Hw.
Qed.

Lemma snoc_split {A} (l l1 l2 : list A) (x : A) :
  l ++ [x] = l1 ++ l2 →
  (l2 = [] ∧ l1 = l ++ [x]) ∨ (∃ l2', l2 = l2' ++ [x] ∧ l = l1 ++ l2').
Proof.
  intros H. destruct l2 as [|y l2 _] using rev_ind.
  - left. rewrite app_nil_r in H. auto.
  - right. exists l2. rewrite app_assoc in H.
    apply app_inj_tail in H as [-> ->]. auto.
Qed.

Lemma started_by_snoc c evs ev k rec pre post :
  started_by c evs k rec pre post →
  has_record (streamWorkers (after c (evs ++ [ev]))) k rec →
  started_by c (evs ++ [ev]) k rec pre (post ++ [ev]).
Proof.
  intros (-> & Hacc & Hkeep) Hnow. split; [|split; [done|]].
  - by rewrite <- app_assoc.
  - intros post1 post2 Hsplit.
    apply snoc_split in Hsplit as [[-> ->]|(post2' & -> & ->)].
    + by rewrite <- app_assoc in Hnow.
    + by apply (Hkeep post1 post2').
Qed.

(** Every record in the pool was created by an accepted start request for
    its key and points to the payload object of that request. *)
Lemma record_provenance c evs k rec :
  has_record (streamWorkers (after c evs)) k rec →
  ∃ pre post, started_by c evs k rec pre post.
Proof.
  induction evs as [|ev evs IH] using rev_ind; intros Hrec.
  - destruct Hrec as [i Hi]. unfold entry, after in Hi. simpl in Hi.
    destruct (spawn _ !! i) as [w|] eqn:Hw; simpl in Hi; [|done].
    apply spawn_lookup in Hw as ->. simpl in Hi. by rewrite lookup_empty in Hi.
  - pose proof Hrec as Hnow. rewrite after_snoc in Hrec.
    apply (record_origin (after c evs) ev) in Hrec as [Hold|[-> Hacc]];
      [| |apply handle_change].
    + destruct (IH Hold) as (pre & post & Hst).
      exists pre, (post ++ [ev]). by apply started_by_snoc.
    + exists evs, []. split; [done|]. split; [done|].
      intros post1 post2 Hnil. symmetry in Hnil.
      apply app_eq_nil in Hnil as [-> _]. done.
Qed.

(** ** The contents of a payload object over time *)

Lemma same_stream_refl sd : same_stream sd sd.
Proof. by repeat split. Qed.

Lemma same_stream_trans a b c : same_stream a b → same_stream b c → same_stream a c.
Proof. intros (? & ? & ?) (? & ? & ?). repeat split; congruence. Qed.

Lemma same_stream_set_sessionId v sd : same_stream sd (set_sessionId v sd).
Proof. by repeat split. Qed.

(** An event leaves a payload object alone, or writes its [sessionId], or
    is a write of the caller to that object. *)
Lemma heap_step s ev s' r sd :
  world_change s ev s' → heap s !! r = Some sd →
  (∃ sd', ev = caller_write r sd') ∨
  (∃ sd', heap s' !! r = Some sd' ∧ same_stream sd sd').
Proof.
  intros Hc Hr.
  destruct Hc as [| | |i w data rec sd0 _ _ Hsd0|r0 sd0]; simpl;
    try (right; exists sd; split; [done | apply same_stream_refl]).
  - right. destruct (decide (streamData rec = r)) as [<-|Hne].
    + rewrite lookup_insert_eq. eexists. split; [done|].
      rewrite Hr in Hsd0. injection Hsd0 as <-. apply same_stream_set_sessionId.
    + rewrite lookup_insert_ne by done. exists sd. split; [done|].
      apply same_stream_refl.
  - destruct (decide (r0 = r)) as [<-|Hne]; [left; by exists sd0|].
    right. rewrite lookup_insert_ne by done. exists sd. split; [done|].
    apply same_stream_refl.
Qed.

Lemma heap_history evs s r sd :
  heap s !! r = Some sd → untouched r evs →
  ∃ sd', heap (run evs s).1 !! r = Some sd' ∧ same_stream sd sd'.
Proof.
  revert s sd. induction evs as [|ev evs IH]; intros s sd Hr Hun; simpl.
  - exists sd. split; [done | apply same_stream_refl].
  - destruct (heap_step s ev _ r sd (handle_change ev s) Hr)
      as [[sd' ->]|(sd' & Hr' & Hsame)].
    + destruct (Hun sd'). apply list_elem_of_here.
    + destruct (IH _ sd' Hr') as (sd'' & Hr'' & Hsame').
      { intros x Hx. apply (Hun x). by apply list_elem_of_further. }
      exists sd''. split; [done|]. by apply (same_stream_trans _ sd').
Qed.

Lemma start_heap r s : heap (world_of (on_start_livestream r s)) = heap s.
Proof.
  destruct s as [ws h]. rewrite on_start_livestream_eq.
  destruct (h !! r) as [sd|]; [|done].
  destruct (getWorkerId ws _) as [z|]; [|done].
  destruct (_ <? 0); [|done]. by destruct (at_index ws _).
Qed.

(** As long as the caller does not overwrite it, the payload behind a
    record differs from what it was when the start request was accepted
    at most in [sessionId]. *)
Lemma payload_since_start c evs k rec pre post :
  started_by c evs k rec pre post → untouched (streamData rec) post →
  ∃ sd0 sd,
    heap (after c pre) !! streamData rec = Some sd0 ∧ deviceId sd0 = k ∧
    heap (after c evs) !! streamData rec = Some sd ∧ same_stream sd0 sd.
Proof.
  intros (-> & (sd0 & Hsd0 & Hk & _) & _) Hun.
  unfold after at 2. rewrite run_app. simpl.
  fold (after c pre).
  destruct (heap_history post
              (world_of (on_start_livestream (streamData rec) (after c pre)))
              (streamData rec) sd0) as (sd & Hsd & Hsame); [|done|].
  { by rewrite start_heap. }
  by exists sd0, sd.
Qed.

(** A record disappears only through an "inactive" or "failed" message
    for its key. *)
Lemma removal_only_terminal s ev s' i k rec :
  world_change s ev s' →
  entry (streamWorkers s) i k = Some rec →
  entry (streamWorkers s') i k ≠ Some rec →
  ∃ data, ev = worker_message data ∧
          LiveCallData.deviceId (liveCallData data) = k ∧
          (state data = "inactive" ∨ state data = "failed").
Proof.
  intros Hc Hi Hgone.
  destruct Hc as [|i0 w r sd Hw Hr Hfree|i0 w data Hw Hst| |]; simpl in *;
    try done.
  - rewrite (entry_with_sessions _ _ _ _ _ _ Hw) in Hgone.
    destruct (decide (i0 = i)) as [->|]; [|done].
    unfold entry in Hi. rewrite Hw in Hi. simpl in Hi.
    destruct (decide (deviceId sd = k)) as [<-|Hne].
    + destruct Hfree. exists i, w. by rewrite Hi.
    + by rewrite lookup_insert_ne in Hgone.
  - rewrite (entry_with_sessions _ _ _ _ _ _ Hw) in Hgone.
    destruct (decide (i0 = i)) as [->|]; [|done].
    unfold entry in Hi. rewrite Hw in Hi. simpl in Hi.
    destruct (decide (LiveCallData.deviceId (liveCallData data) = k)) as [Hk|Hne].
    + by exists data.
    + by rewrite lookup_delete_ne in Hgone.
Qed.

Lemma stop_registered ws h r sd (i : nat) w rec stored z :
  unique_owner ws → getWorkerId ws (deviceId sd) = Ok z →
  h !! r = Some sd → ws !! i = Some w →
  sessions w !! deviceId sd = Some rec → h !! streamData rec = Some stored →
  on_stop_livestream r (mkWorld ws h) =
    (Ok tt, mkWorld ws h, [PostMessage (liveCall w) "stop" stored]).
Proof.
  intros Hu Hget Hr Hw Hk Hst.
  assert (z = Z.of_nat i) as ->.
  { apply (owner_index ws i w _ z Hu Hget Hw). by rewrite Hk. }
  rewrite on_stop_livestream_eq, Hr, Hget.
  destruct (Z.geb_spec (Z.of_nat i) 0); [|lia].
  by rewrite at_index_nat, Hw, Hk, Hst.
Qed.

(** C6, as stated, fails once a session with device id ["hasOwnProperty"]
    is registered: a stop request for that key, which worker 0 holds,
    throws in the lookup, and no "stop" command is posted. *)
Lemma stop_registered_throws :
  heap shadow_world !! 1%nat = Some (payload "hasOwnProperty") ∧
  entry (streamWorkers shadow_world) 0 "hasOwnProperty" = Some (mkSession 1) ∧
  on_stop_livestream 1%nat shadow_world = (TypeError, shadow_world, []).
Proof. vm_compute. repeat split; congruence. Qed.

(** C6 (amended): after any history, a [stop_livestream] request whose
    key [k] is held by worker entry [i], when no entry up to [i] has a
    record under the key ["hasOwnProperty"] (the lookup reaches the
    owner), posts exactly one command, "stop",
    to the thread of entry [i]; it carries the contents of the payload
    object that [k]'s record points to, which is the object of the start
    request that created the record (and, unless its owner has overwritten
    it since, has the contents it had then up to [sessionId]), not the
    payload of the stop request.  The request changes nothing: every
    registry (and payload) is as before, [k]'s record included; the record
    goes away only with an "inactive" or "failed" message for [k]. *)
Theorem stop_forwards_stored_payload c evs r sd (i : nat) w :
  scan_reaches (streamWorkers (after c evs)) i →
  heap (after c evs) !! r = Some sd →
  streamWorkers (after c evs) !! i = Some w →
  is_Some (sessions w !! deviceId sd) →
  ∃ rec stored pre post,
    sessions w !! deviceId sd = Some rec ∧
    heap (after c evs) !! streamData rec = Some stored ∧
    on_stop_livestream r (after c evs) =
      (Ok tt, after c evs, [PostMessage i "stop" stored]) ∧
    started_by c evs (deviceId sd) rec pre post ∧
    (untouched (streamData rec) post →
     ∃ sd0, heap (after c pre) !! streamData rec = Some sd0 ∧
            same_stream sd0 stored) ∧
    (∀ ev,
       entry (streamWorkers (world_of (handle ev (after c evs)))) i (deviceId sd)
         ≠ Some rec →
       ∃ data, ev = worker_message data ∧
               LiveCallData.deviceId (liveCallData data) = deviceId sd ∧
               (state data = "inactive" ∨ state data = "failed")).
Proof.
  intros Hc Hr Hw Hk0. pose proof Hk0 as [rec Hk].
  pose proof (after_reachable c evs) as Hs.
  pose proof (reachable_unique _ _ Hs) as Hu.
  destruct (reachable_allocated _ _ Hs i w _ rec Hw Hk) as [stored Hst].
  destruct (reachable_shape _ _ Hs) as [_ Hth].
  destruct (record_provenance c evs (deviceId sd) rec) as (pre & post & Hby).
  { exists i. unfold entry. by rewrite Hw. }
  exists rec, stored, pre, post.
  split; [done|]. split; [done|]. split; [|split; [done|split]].
  - destruct (after c evs) as [ws h] eqn:Hafter. simpl in *.
    rewrite (stop_registered ws h r sd i w rec stored _ Hu
               (getWorkerId_owner ws _ i w Hu Hc Hw Hk0)) by done.
    by rewrite (Hth i w Hw).
  - intros Hun.
    destruct (payload_since_start c evs _ rec pre post Hby Hun)
      as (sd0 & sd' & Hsd0 & _ & Hsd' & Hsame).
    exists sd0. split; [done|]. rewrite Hst in Hsd'. by injection Hsd' as <-.
  - intros ev. apply (removal_only_terminal (after c evs) ev); [apply handle_change|].
    unfold entry. by rewrite Hw.
Qed.
(** ** The registries over time *)



Lemma insert_keeps_clean ws (i : nat) w k rec :
  clean ws → k ≠ "hasOwnProperty" → ws !! i = Some w →
  clean (with_sessions ws (Z.of_nat i) (<[k := rec]> (sessions w))).
Proof.
  intros Hc Hk Hw (j & Hj).
  apply (holds_with_sessions _ _ _ _ _ _ Hw) in Hj as [[<- Hs]|[_ Hj]].
  - rewrite lookup_insert_ne in Hs by done. apply Hc. by exists i, w.
  - apply Hc. by exists j.
Qed.

Lemma delete_keeps_clean ws (i : nat) w k :
  clean ws → ws !! i = Some w →
  clean (with_sessions ws (Z.of_nat i) (delete k (sessions w))).
Proof.
  intros Hc Hw (j & Hj).
  apply (holds_with_sessions _ _ _ _ _ _ Hw) in Hj as [[<- Hs]|[_ Hj]].
  - apply Hc. exists i, w. split; [done|].
    destruct Hs as [rec Hs]. apply lookup_delete_Some in Hs as [_ Hs]. eauto.
  - apply Hc. by exists j.
Qed.


(** C4, as stated, fails for the device id ["__proto__"]: the first start
    registers nothing, so the second start is not recognised as a
    duplicate.  Two "start" commands are posted and the key has no
    registry entry. *)
Lemma start_twice_posts_twice :
  heap proto_world !! 3%nat = Some (payload "__proto__") ∧
  run [start_livestream 3%nat; start_livestream 3%nat] proto_world =
    (proto_world,
     [PostMessage 0 "start" (payload "__proto__");
      PostMessage 0 "start" (payload "__proto__")]) ∧
  entries (streamWorkers proto_world) "__proto__" = 0%nat.
Proof. vm_compute. repeat split; congruence. Qed.

(** C4 (amended): in a reachable state of a pool built for at least one
    core, in which no registry holds a record under the key
    ["hasOwnProperty"], two [start_livestream] requests in succession for
    the same key [k], other than ["__proto__"] and ["hasOwnProperty"],
    both run to completion; the second changes nothing and has no effect;
    [k] then has exactly one registry entry pool-wide; and the two
    requests together post exactly one "start" command when [k] was not
    registered before the first (none when it was). *)
Theorem start_twice c s r1 r2 sd1 sd2 :
  1 ≤ c → reachable c s →
  clean (streamWorkers s) →
  heap s !! r1 = Some sd1 → heap s !! r2 = Some sd2 →
  deviceId sd2 = deviceId sd1 →
  deviceId sd1 ≠ "__proto__" → deviceId sd1 ≠ "hasOwnProperty" →
  let x1 := on_start_livestream r1 s in
  let x2 := on_start_livestream r2 (world_of x1) in
  result_of x1 = Ok tt ∧
  x2 = (Ok tt, world_of x1, []) ∧
  run [start_livestream r1; start_livestream r2] s = (world_of x1, effects_of x1) ∧
  entries (streamWorkers (world_of x2)) (deviceId sd1) = 1%nat ∧
  (¬ registered (streamWorkers s) (deviceId sd1) →
   ∃ t, commands "start" (effects_of x1 ++ effects_of x2) =
          [PostMessage t "start" sd1]) ∧
  (registered (streamWorkers s) (deviceId sd1) →
   effects_of x1 ++ effects_of x2 = []).
Proof.
  intros Hc Hs Hclean Hr1 Hr2 Hk Hp Hh x1 x2.
  assert (reachable c (world_of x1)) as Hs1
    by apply (reachable_step c s (start_livestream r1) Hs).
  pose proof (reachable_unique _ _ Hs1) as Hu1.
  pose proof (reachable_nonempty c s Hc Hs) as Hne.
  assert (heap (world_of x1) !! r2 = Some sd2) as Hr2'
    by (subst x1; by rewrite start_heap).
  assert (result_of x1 = Ok tt ∧
          clean (streamWorkers (world_of x1)) ∧
          registered (streamWorkers (world_of x1)) (deviceId sd1) ∧
          (¬ registered (streamWorkers s) (deviceId sd1) →
           ∃ t, effects_of x1 = [PostMessage t "start" sd1]) ∧
          (registered (streamWorkers s) (deviceId sd1) → effects_of x1 = []))
    as (Hok & Hclean1 & Hreg & Hfresh & Hdup).
  { subst x1 x2. destruct s as [ws h]. simpl in *.
    pose proof (getWorkerId_clean ws (deviceId sd1) Hclean) as Hget.
    destruct (Z.ltb_spec (first_holder ws (deviceId sd1)) 0) as [Hlt|Hge].
    - destruct (start_fresh ws h r1 sd1 _ Hr1 Hget Hlt Hne)
        as (i & w & Hw & _ & _ & ->).
      rewrite set_property_plain by done. simpl.
      split; [done|]. split; [by apply insert_keeps_clean|].
      split; [|split; [eauto|]].
      2: { intros Hreg. apply first_holder_registered in Hreg. lia. }
      exists i. apply (holds_with_sessions _ _ _ _ _ _ Hw). left.
      split; [done|]. rewrite lookup_insert_eq. eauto.
    - rewrite (start_registered ws h r1 sd1 _ Hr1 Hget Hge). simpl.
      apply first_holder_registered in Hge.
      split; [done|]. split; [done|]. split; [done|]. split; [done | auto]. }
  assert (x2 = (Ok tt, world_of x1, [])) as Hx2.
  { subst x2. destruct (world_of x1) as [ws1 h1] eqn:Hw1. simpl in *.
    apply (start_registered ws1 h1 r2 sd2 (first_holder ws1 (deviceId sd2)) Hr2').
    - by apply getWorkerId_clean.
    - apply first_holder_registered. by rewrite Hk. }
  split; [done|]. split; [done|]. split; [|split; [|split]].
  - simpl. fold x1. fold x2. rewrite Hx2. simpl. by rewrite app_nil_r.
  - rewrite Hx2. simpl. by apply entries_registered.
  - intros Hfree. destruct (Hfresh Hfree) as [t Ht]. exists t.
    rewrite Hx2, Ht. reflexivity.
  - intros Hreg0. rewrite Hx2, (Hdup Hreg0). reflexivity.
Qed.

(** C10: after any history, every session record in a registry points to
    a payload object that exists, namely the object of the accepted start
    request that created the record.  Hence, whenever the key lookup
    succeeds ([getWorkerId] returns an index), the stop listener (which
    reads the stored payload) and the message listener (whose "active"
    case writes [sessionId] into it) run to completion without a
    [TypeError]. *)
Theorem records_keep_start_payload c evs :
  records_allocated (after c evs) ∧
  (∀ i k rec,
     entry (streamWorkers (after c evs)) i k = Some rec →
     ∃ pre post, started_by c evs k rec pre post) ∧
  (∀ r sd z,
     heap (after c evs) !! r = Some sd →
     getWorkerId (streamWorkers (after c evs)) (deviceId sd) = Ok z → 0 ≤ z →
     result_of (on_stop_livestream r (after c evs)) = Ok tt) ∧
  (∀ data z,
     getWorkerId (streamWorkers (after c evs))
       (LiveCallData.deviceId (liveCallData data)) = Ok z → 0 ≤ z →
     result_of (on_message data (after c evs)) = Ok tt).
Proof.
  pose proof (after_reachable c evs) as Hs.
  pose proof (reachable_unique _ _ Hs) as Hu.
  pose proof (reachable_allocated _ _ Hs) as Ha.
  split; [done|]. split; [|split].
  - intros i k rec Hi. apply record_provenance. by exists i.
  - intros r sd z Hr Hget Hz.
    pose proof Hz as Hz'. rewrite (getWorkerId_Ok _ _ _ Hget) in Hz'.
    apply first_holder_registered in Hz' as (i & w & Hw & [rec Hk]).
    destruct (Ha i w _ rec Hw Hk) as [stored Hst].
    destruct (after c evs) as [ws h]. simpl in *.
    by rewrite (stop_registered ws h r sd i w rec stored z).
  - intros data z Hget Hz.
    pose proof Hz as Hz'. rewrite (getWorkerId_Ok _ _ _ Hget) in Hz'.
    apply first_holder_registered in Hz' as (i & w & Hw & [rec Hk]).
    destruct (Ha i w _ rec Hw Hk) as [sd Hsd].
    destruct (after c evs) as [ws h]. simpl in *.
    destruct (decide (state data = "active")) as [Hact|Hact].
    { by rewrite (active_report ws h data i w rec sd z). }
    assert (is_Some (sessions w !! LiveCallData.deviceId (liveCallData data)))
      as Hk' by by rewrite Hk.
    destruct (decide (state data = "inactive")) as [Hin|Hin].
    { by rewrite (terminal_report ws h data i w z Hu Hget Hw Hk' (or_introl Hin)). }
    destruct (decide (state data = "failed")) as [Hf|Hf].
    { by rewrite (terminal_report ws h data i w z Hu Hget Hw Hk' (or_intror Hf)). }
    rewrite on_message_other by done. by rewrite Hget.
Qed.
(** ** Examples *)

Example ex_world_pool : streamWorkers ex_world = [ex_worker0; ex_worker1].
Proof. vm_compute. reflexivity. Qed.

(** The scenario of the specification: with A on worker 0 and B on worker
    1, the stop of A goes to thread 0 with A's stored payload (which by
    then carries the session id reported with "active", and not the
    contents of the stop request); once A is reported inactive, C is
    placed on worker 0. *)
Example scenario_effects :
  (run scenario ex_world).2 =
  [Emit "livestream_A" "active";
   PostMessage 0 "stop" (set_sessionId (Some "s-1") (payload "A"));
   Emit "livestream_A" "inactive";
   PostMessage 0 "start" (payload "C")].
Proof. vm_compute. reflexivity. Qed.

Example scenario_pool :
  streamWorkers (run scenario ex_world).1 =
  [{| liveCall := 0; sessions := {["C" := mkSession 3]} |}; ex_worker1].
Proof. vm_compute. reflexivity. Qed.

(** The failure scenario: "failed" is relayed once, D is then in no
    registry, and the later stop of D is answered with "inactive". *)
Example failure_scenario_effects :
  (run failure_scenario ex_world).2 =
  [PostMessage 0 "start" (payload "D");
   Emit "livestream_D" "active";
   Emit "livestream_D" "failed";
   Emit "livestream_D" "inactive"].
Proof. vm_compute. reflexivity. Qed.

Example failure_scenario_pool :
  streamWorkers (run failure_scenario ex_world).1 = [ex_worker0; ex_worker1].
Proof. vm_compute. reflexivity. Qed.

(** Sizes of the pool for small hosts. *)
Example numWorkers_table :
  map numWorkers [1; 2; 3; 4; 5; 6; 8; 64] = [1; 1; 2; 3; 4; 4; 4; 4].
Proof. vm_compute. reflexivity. Qed.

(** The pools of the examples: [ex_world] has no record under
    ["hasOwnProperty"], [shadow_world] has one on worker 0. *)
Example shadow_world_pool :
  streamWorkers shadow_world =
  [{| liveCall := 0; sessions := {["hasOwnProperty" := mkSession 1]} |};
   {| liveCall := 1; sessions := ∅ |}].
Proof. vm_compute. reflexivity. Qed.

(** With a session called ["hasOwnProperty"] registered, every request
    and every message throws, whatever its key; nothing is emitted or
    posted any more. *)
Example shadowed_pool_is_stuck :
  map (λ ev, handle ev shadow_world)
    [start_livestream 2%nat; stop_livestream 2%nat; stop_livestream 1%nat;
     worker_message (report "inactive" "hasOwnProperty" None);
     worker_message (report "active" "B" None)] =
  [(TypeError, shadow_world, []); (TypeError, shadow_world, []);
   (TypeError, shadow_world, []); (TypeError, shadow_world, []);
   (TypeError, shadow_world, [])].
Proof. vm_compute. reflexivity. Qed.

(** A lookup that finds its key before it meets the shadowed registry
    still works: with A on worker 0 and ["hasOwnProperty"] on worker 1,
    the stop of A is forwarded, while the stop of the other session
    throws. *)
Example lookup_before_shadow :
  map (λ ev, (result_of (handle ev mixed_world), effects_of (handle ev mixed_world)))
    [stop_livestream 1%nat; stop_livestream 2%nat] =
  [(Ok tt, [PostMessage 0 "stop" (payload "A")]); (TypeError, [])].
Proof. vm_compute. reflexivity. Qed.

(** A session called ["__proto__"] is never registered: it is started
    again by a second request, its "active" message is dropped, and its
    stop is answered with "inactive". *)
Example proto_session_effects :
  (run [start_livestream 3%nat; start_livestream 3%nat;
        worker_message (report "active" "__proto__" (Some "s-1"));
        stop_livestream 3%nat] proto_world).2 =
  [PostMessage 0 "start" (payload "__proto__");
   PostMessage 0 "start" (payload "__proto__");
   Emit "livestream___proto__" "inactive"].
Proof. vm_compute. reflexivity. Qed.

(** ** The theorems at concrete inputs *)

Lemma clean_by_scan ws : first_holder ws "hasOwnProperty" < 0 → clean ws.
Proof. apply first_holder_none. Qed.


Lemma start_least_loaded_witness :
  ∃ (i : nat) w,
    [ex_worker0; ex_worker1] !! i = Some w ∧
    effects_of (on_start_livestream 3%nat
                  (mkWorld [ex_worker0; ex_worker1] (heap ex_world))) =
      [PostMessage (liveCall w) "start" (payload "C")].
Proof.
  destruct (start_least_loaded [ex_worker0; ex_worker1] (heap ex_world)
              3%nat (payload "C")) as (i & w & Hw & _ & _ & _ & He & _).
  - intros H. discriminate H.
  - apply clean_by_scan. vm_compute. reflexivity.
  - vm_compute. reflexivity.
  - apply first_holder_none. vm_compute. reflexivity.
  - intros H. discriminate H.
  - exists i, w. split; [apply Hw | apply He].
Defined.

Lemma start_twice_witness :
  entries
    (streamWorkers
       (world_of (on_start_livestream 3%nat
                    (world_of (on_start_livestream 3%nat ex_world)))))
    "C" = 1%nat.
Proof.
  destruct (start_twice 3 ex_world 3%nat 3%nat (payload "C") (payload "C"))
    as (_ & _ & _ & He & _).
  - lia.
  - apply after_reachable.
  - apply clean_by_scan. vm_compute. reflexivity.
  - vm_compute. reflexivity.
  - vm_compute. reflexivity.
  - reflexivity.
  - intros H. discriminate H.
  - intros H. discriminate H.
  - apply He.
Defined.

Lemma stop_unknown_key_witness :
  on_stop_livestream 3%nat (mkWorld [ex_worker0; ex_worker1] (heap ex_world)) =
  (Ok tt, mkWorld [ex_worker0; ex_worker1] (heap ex_world),
   [Emit "livestream_C" "inactive"]).
Proof.
  apply (stop_unknown_key [ex_worker0; ex_worker1] (heap ex_world) 3%nat
           (payload "C")).
  - apply clean_by_scan. vm_compute. reflexivity.
  - vm_compute. reflexivity.
  - apply first_holder_none. vm_compute. reflexivity.
Defined.

Lemma stop_forwards_stored_payload_witness :
  ∃ stored,
    on_stop_livestream 5%nat (after 3 ex_events) =
    (Ok tt, after 3 ex_events, [PostMessage 0 "stop" stored]).
Proof.
  destruct (stop_forwards_stored_payload 3 ex_events 5%nat stop_A 0%nat ex_worker0)
    as (rec & stored & pre & post & _ & _ & Hstop & _).
  - apply clean_scan_reaches, clean_by_scan. vm_compute. reflexivity.
  - vm_compute. reflexivity.
  - vm_compute. reflexivity.
  - exists (mkSession 1). vm_compute. reflexivity.
  - exists stored. apply Hstop.
Defined.

Lemma terminal_report_removes_witness :
  ¬ registered
      (streamWorkers (world_of (on_message (report "failed" "B" None) ex_world)))
      "B".
Proof.
  destruct (terminal_report_removes 3 ex_world (report "failed" "B" None)
              1%nat ex_worker1) as (_ & _ & _ & _ & _ & _ & Hgone).
  - apply after_reachable.
  - apply clean_scan_reaches, clean_by_scan. vm_compute. reflexivity.
  - vm_compute. reflexivity.
  - exists (mkSession 2). vm_compute. reflexivity.
  - right. reflexivity.
  - apply Hgone.
Defined.

Lemma active_report_records_session_witness :
  effects_of (on_message (report "active" "A" (Some "s-1")) ex_world) =
    [Emit "livestream_A" "active"] ∧
  streamWorkers (world_of (on_message (report "active" "A" (Some "s-1")) ex_world)) =
    streamWorkers ex_world.
Proof.
  destruct (active_report_records_session 3 ex_world
              (report "active" "A" (Some "s-1")) 0%nat ex_worker0)
    as (_ & He & Hws & _).
  - apply after_reachable.
  - apply clean_scan_reaches, clean_by_scan. vm_compute. reflexivity.
  - vm_compute. reflexivity.
  - exists (mkSession 1). vm_compute. reflexivity.
  - reflexivity.
  - split; [apply He | apply Hws].
Defined.

(** * Further properties of the pool *)

(** ** Lookup *)

(** X1: [getWorkerId] scans the worker entries in pool order.  It returns
    the lowest index of an entry whose registry has the key, or [-1] when
    no entry has it, provided no entry up to that index (no entry at all
    for [-1]) has a record under the key ["hasOwnProperty"]; it throws
    when the scan meets an entry with such a record before an entry that
    has the key. *)
Theorem getWorkerId_first_holder ws k :
  match getWorkerId ws k with
  | Ok z =>
      ((z = -1 ∧ ∀ i, ¬ holds ws i k) ∨
       (∃ i : nat, z = Z.of_nat i ∧ holds ws i k ∧
                   ∀ j, (j < i)%nat → ¬ holds ws j k)) ∧
      ∀ j : nat, z < 0 ∨ Z.of_nat j ≤ z → ¬ holds ws j "hasOwnProperty"
  | TypeError =>
      ∃ j : nat,
        holds ws j "hasOwnProperty" ∧
        ∀ j', (j' < j)%nat →
              ¬ holds ws j' k ∧ ¬ holds ws j' "hasOwnProperty"
  end.
Proof.
  assert (∀ j w k', ws !! j = Some w → owns w k' = false → ¬ holds ws j k')
    as Hnot.
  { intros j w k' Hw Hk (w' & Hw' & Hs). rewrite Hw in Hw'. injection Hw' as <-.
    apply owns_false in Hk. rewrite Hk in Hs. by destruct Hs. }
  pose proof (getWorkerId_spec ws k) as Hspec.
  destruct (getWorkerId ws k) as [z|].
  - destruct Hspec as [-> Hshadow]. split.
    + destruct (first_index_cases (λ w, owns w k) ws) as [Hn|[i Hi]].
      * left. split; [done|]. intros i Hi.
        assert (first_holder ws k < 0) as Hlt by (unfold first_holder; lia).
        apply first_holder_none in Hlt. apply Hlt. by exists i.
      * right. exists i. split; [done|].
        apply first_index_some in Hi as (w & Hw & Hk & Hfirst). split.
        -- exists w. split; [done|]. by apply owns_true.
        -- intros j Hj (wj & Hwj & Hkj). specialize (Hfirst j wj Hj Hwj).
           apply owns_false in Hfirst. rewrite Hfirst in Hkj. by destruct Hkj.
    + intros j Hj (w & Hw & Hs). specialize (Hshadow j w Hw Hj).
      apply owns_false in Hshadow. rewrite Hshadow in Hs. by destruct Hs.
  - destruct Hspec as (j & w & Hw & Hs & Hbefore). exists j. split.
    + exists w. split; [done|]. by apply owns_true.
    + intros j' Hj'.
      assert (j' < length ws)%nat as Hlen
        by (apply lookup_lt_Some in Hw; lia).
      apply lookup_lt_is_Some in Hlen as [w' Hw'].
      destruct (Hbefore j' w' Hj' Hw') as [Hk' Hs'].
      split; by apply (Hnot j' w').
Qed.

(** ** Sizing *)

(** X2: a host with more cores never gets fewer workers. *)
Theorem more_cores_no_fewer_workers (c c' : Z) :
  c ≤ c' →
  (length (streamWorkers (init c)) ≤ length (streamWorkers (init c')))%nat.
Proof.
  intros Hc. simpl. rewrite !spawn_length.
  assert (numWorkers c ≤ numWorkers c') as Hle; [|lia].
  unfold numWorkers. rewrite !Math_round_cores.
  destruct (Z.gtb_spec c 4), (Z.gtb_spec c' 4); try lia.
  - Z.div_mod_to_equations. lia.
  - apply Z.div_le_mono; lia.
Qed.

Lemma more_cores_no_fewer_workers_witness :
  (length (streamWorkers (init 2)) ≤ length (streamWorkers (init 6)))%nat.
Proof. apply (more_cores_no_fewer_workers 2 6). lia. Defined.

(** X3: on a host with at least two cores the pool has at least one
    worker and at least one core fewer workers than cores. *)
Theorem workers_leave_a_core (c : Z) :
  2 ≤ c →
  1 ≤ Z.of_nat (length (streamWorkers (init c))) ≤ c - 1.
Proof.
  intros Hc. rewrite init_length.
  unfold numWorkers. rewrite Math_round_cores.
  destruct (Z.gtb_spec c 4); [lia|].
  Z.div_mod_to_equations. lia.
Qed.

Lemma workers_leave_a_core_witness :
  1 ≤ Z.of_nat (length (streamWorkers (init 4))) ≤ 4 - 1.
Proof. apply (workers_leave_a_core 4). lia. Defined.

(** ** Edge cases of the listeners *)

(** X4: when no core is detected, [init] creates no worker; the pool stays
    empty for ever, every start request throws a [TypeError] without
    changing anything or posting a command, and every stop request is
    answered with "inactive". *)
Theorem no_cores_no_sessions c s :
  c ≤ 0 → reachable c s →
  streamWorkers s = [] ∧
  (∀ r sd, heap s !! r = Some sd →
           on_start_livestream r s = (TypeError, s, [])) ∧
  (∀ r sd, heap s !! r = Some sd →
           on_stop_livestream r s =
             (Ok tt, s, [Emit ("livestream_" ++ deviceId sd)%string "inactive"])).
Proof.
  intros Hc Hs. destruct (reachable_shape c s Hs) as [Hlen _].
  assert (numWorkers c ≤ 0) as Hn.
  { unfold numWorkers. rewrite Math_round_cores.
    destruct (Z.gtb_spec c 4); [lia|]. Z.div_mod_to_equations. lia. }
  assert (streamWorkers s = []) as Hnil.
  { apply length_zero_iff_nil. lia. }
  destruct s as [ws h]. simpl in *. subst ws.
  split; [done|]. split; intros r sd Hr.
  - by rewrite on_start_livestream_eq, Hr.
  - by rewrite on_stop_livestream_eq, Hr.
Qed.

Lemma no_cores_no_sessions_witness :
  streamWorkers (after 0 [caller_write 1%nat (payload "A"); start_livestream 1%nat])
  = [].
Proof.
  destruct (no_cores_no_sessions 0
              (after 0 [caller_write 1%nat (payload "A"); start_livestream 1%nat]))
    as (Hnil & _).
  - lia.
  - apply after_reachable.
  - apply Hnil.
Defined.

(** X5: a listener that throws has changed nothing: whenever the result of
    handling an event is a [TypeError], the pool and the payloads are as
    they were before the event. *)
Theorem throw_changes_nothing ev s :
  result_of (handle ev s) = TypeError → world_of (handle ev s) = s.
Proof.
  destruct s as [ws h]. destruct ev as [r|r|data|r sd]; simpl.
  - rewrite on_start_livestream_eq.
    destruct (h !! r) as [sd|]; [|done].
    destruct (getWorkerId ws _) as [z|]; [|done].
    destruct (_ <? 0); [|done]. by destruct (at_index ws _).
  - rewrite on_stop_livestream_eq.
    destruct (h !! r) as [sd|]; [|done].
    destruct (getWorkerId ws _) as [z|]; [|done].
    destruct (_ >=? 0); [|done].
    destruct (at_index ws _) as [w|]; [|done].
    destruct (sessions w !! deviceId sd) as [rec|]; [|done].
    by destruct (h !! streamData rec).
  - set (k := LiveCallData.deviceId (liveCallData data)).
    destruct (getWorkerId ws k) as [z|] eqn:Hget.
    2: by rewrite on_message_throws.
    destruct (Z.ltb_spec z 0) as [Hlt|Hge].
    { by rewrite (on_message_unknown data ws h z). }
    destruct (decide (state data = "active")) as [Ha|Ha].
    { rewrite (on_message_active data ws h z) by done. simpl. fold k.
      destruct (at_index ws _) as [w|]; [|done].
      destruct (sessions w !! k) as [rec|]; [|done].
      by destruct (h !! streamData rec). }
    destruct (decide (state data = "inactive")) as [Hi|Hi];
      [|destruct (decide (state data = "failed")) as [Hf|Hf]].
    3: by rewrite on_message_other.
    all: rewrite (on_message_terminal data ws h z) by auto; simpl; fold k;
      by destruct (at_index ws _).
  - done.
Qed.

Lemma throw_changes_nothing_witness :
  world_of (handle (start_livestream 9%nat) ex_world) = ex_world.
Proof.
  apply (throw_changes_nothing (start_livestream 9%nat) ex_world).
  vm_compute. reflexivity.
Defined.

(** X6: the effects of one event.  A start request posts at most one
    command, "start" with the contents of its payload, and emits nothing;
    a stop request either posts one "stop" command or emits one "inactive"
    event on the topic of its key; a worker message posts no command and
    emits at most one event, its own state on the topic of its key; a
    write of a caller has no effect. *)
Theorem effects_by_event ev s :
  match ev with
  | start_livestream r =>
      effects_of (handle ev s) = [] ∨
      ∃ t sd, heap s !! r = Some sd ∧
              effects_of (handle ev s) = [PostMessage t "start" sd]
  | stop_livestream r =>
      effects_of (handle ev s) = [] ∨
      ∃ sd, heap s !! r = Some sd ∧
            (effects_of (handle ev s) =
               [Emit ("livestream_" ++ deviceId sd)%string "inactive"] ∨
             ∃ t stored, effects_of (handle ev s) = [PostMessage t "stop" stored])
  | worker_message data =>
      effects_of (handle ev s) = [] ∨
      effects_of (handle ev s) =
        [Emit ("livestream_" ++ LiveCallData.deviceId (liveCallData data))%string
              (state data)]
  | caller_write _ _ => effects_of (handle ev s) = []
  end.
Proof.
  destruct s as [ws h]. destruct ev as [r|r|data|r sd]; simpl.
  - rewrite on_start_livestream_eq.
    destruct (h !! r) as [sd|] eqn:Hr; [|by left].
    destruct (getWorkerId ws _) as [z|]; [|by left].
    destruct (_ <? 0); [|by left].
    destruct (at_index ws _) as [w|]; [|by left].
    right. by exists (liveCall w), sd.
  - rewrite on_stop_livestream_eq.
    destruct (h !! r) as [sd|] eqn:Hr; [|by left].
    destruct (getWorkerId ws _) as [z|]; [|by left].
    destruct (_ >=? 0); [|right; exists sd; auto].
    destruct (at_index ws _) as [w|]; [|by left].
    destruct (sessions w !! deviceId sd) as [rec|]; [|by left].
    destruct (h !! streamData rec) as [stored|]; [|by left].
    right. exists sd. split; [done|]. right. by exists (liveCall w), stored.
  - set (k := LiveCallData.deviceId (liveCallData data)).
    destruct (getWorkerId ws k) as [z|] eqn:Hget.
    2: { left. by rewrite on_message_throws. }
    destruct (Z.ltb_spec z 0) as [Hlt|Hge].
    { left. by rewrite (on_message_unknown data ws h z). }
    destruct (decide (state data = "active")) as [Ha|Ha].
    { right. rewrite (on_message_active data ws h z) by done. simpl. fold k.
      rewrite Ha.
      destruct (at_index ws _) as [w|]; [|done].
      destruct (sessions w !! k) as [rec|]; [|done].
      by destruct (h !! streamData rec). }
    destruct (decide (state data = "inactive")) as [Hi|Hi];
      [|destruct (decide (state data = "failed")) as [Hf|Hf]].
    3: left; by rewrite on_message_other.
    all: right; rewrite (on_message_terminal data ws h z) by auto; simpl; fold k;
      by destruct (at_index ws _).
  - done.
Qed.

(** X7: a status message whose [state] is none of "active", "inactive"
    and "failed" (the [switch] has no default case, and the comparison is
    case-sensitive) has no effect and changes nothing, also when its key
    is registered.  The listener returns normally when no registry holds
    a record under the key ["hasOwnProperty"]. *)
Theorem unknown_state_ignored ws h data :
  state data ≠ "active" → state data ≠ "inactive" → state data ≠ "failed" →
  effects_of (on_message data (mkWorld ws h)) = [] ∧
  world_of (on_message data (mkWorld ws h)) = mkWorld ws h ∧
  (clean ws → on_message data (mkWorld ws h) = (Ok tt, mkWorld ws h, [])).
Proof.
  intros H1 H2 H3. rewrite on_message_other by done.
  split; [done|]. split; [done|]. intros Hc.
  by rewrite (getWorkerId_clean ws _ Hc).
Qed.

Lemma unknown_state_ignored_witness :
  on_message (report "Active" "A" (Some "s-1"))
    (mkWorld [ex_worker0; ex_worker1] (heap ex_world)) =
  (Ok tt, mkWorld [ex_worker0; ex_worker1] (heap ex_world), []).
Proof.
  destruct (unknown_state_ignored [ex_worker0; ex_worker1] (heap ex_world)
              (report "Active" "A" (Some "s-1"))) as (_ & _ & Hok).
  - intros H. discriminate H.
  - intros H. discriminate H.
  - intros H. discriminate H.
  - apply Hok. apply clean_by_scan. vm_compute. reflexivity.
Defined.

(** ** Invariants *)

(** X8: the pool is fixed by [init]: in every reachable state it has the
    number of entries [init] created, and the entry at index [i] still
    has the thread handle [init] gave it. *)
Theorem pool_is_fixed c s :
  reachable c s →
  length (streamWorkers s) = length (streamWorkers (init c)) ∧
  ∀ i w, streamWorkers s !! i = Some w →
         liveCall <$> streamWorkers (init c) !! i = Some (liveCall w).
Proof.
  intros Hs. destruct (reachable_shape c s Hs) as [Hlen Hth].
  split; [by rewrite Hlen; simpl; rewrite spawn_length|].
  intros i w Hw. simpl.
  assert (i < length (spawn (Z.to_nat (numWorkers c))))%nat as Hi.
  { rewrite spawn_length, <- Hlen. by apply lookup_lt_Some in Hw. }
  apply lookup_lt_is_Some in Hi as [w0 Hw0]. rewrite Hw0. simpl.
  apply spawn_lookup in Hw0 as ->. simpl. by rewrite (Hth i w Hw).
Qed.

Lemma pool_is_fixed_witness :
  length (streamWorkers (run scenario ex_world).1) = length (streamWorkers (init 3)).
Proof.
  destruct (pool_is_fixed 3 (run scenario ex_world).1) as [Hlen _].
  - apply run_reachable. apply after_reachable.
  - apply Hlen.
Defined.

Lemma pool_change_cause ev s :
  streamWorkers (world_of (handle ev s)) = streamWorkers s ∨
  (∃ r, ev = start_livestream r) ∨
  (∃ data, ev = worker_message data ∧
           (state data = "inactive" ∨ state data = "failed")).
Proof.
  pose proof (handle_change ev s) as Hc. revert Hc.
  generalize (world_of (handle ev s)) as s'. intros s' Hc.
  destruct Hc as [|i w r sd _ _ _|i w data _ Hst| |]; simpl in *; auto.
  - right. left. by exists r.
  - right. right. by exists data.
Qed.

Lemma start_keeps_balance ws h r :
  balanced ws →
  balanced (streamWorkers (world_of (on_start_livestream r (mkWorld ws h)))).
Proof.
  intros Hb. rewrite on_start_livestream_eq.
  destruct (h !! r) as [sd|]; [|done].
  destruct (getWorkerId ws (deviceId sd)) as [z|] eqn:Hget; [|done].
  destruct (Z.ltb_spec z 0) as [Hlt|]; [|done].
  destruct (decide (ws = [])) as [->|Hne]; [done|].
  destruct (placement_spec ws Hne) as (i & w & -> & Hw & Hle & Hless).
  rewrite at_index_nat, Hw. simpl.
  destruct (decide (deviceId sd = "__proto__")) as [Hp|Hp].
  { by rewrite Hp, set_property_proto, (with_sessions_id ws i w Hw). }
  rewrite set_property_plain by done.
  assert (sessions w !! deviceId sd = None) as Hfresh.
  { apply eq_None_not_Some. intros Hk.
    rewrite (getWorkerId_Ok _ _ _ Hget) in Hlt.
    apply first_holder_none in Hlt. apply Hlt. by exists i, w. }
  assert (size (<[deviceId sd := mkSession r]> (sessions w)) = S (size (sessions w)))
    as Hsize by by apply map_size_insert_None.
  intros a b wa wb Hab Ha Hb'. rewrite with_sessions_lookup in Ha, Hb'.
  destruct (decide (i = a)) as [<-|Hia], (decide (i = b)) as [<-|Hib];
    try lia.
  - rewrite Hw in Ha. injection Ha as <-. simpl. rewrite Hsize.
    pose proof (Hb i b w wb Hab Hw Hb'). pose proof (Hle b wb Hb'). lia.
  - rewrite Hw in Hb'. injection Hb' as <-. simpl. rewrite Hsize.
    pose proof (Hb a i wa w Hab Ha Hw). pose proof (Hless a wa Hab Ha). lia.
  - by apply (Hb a b).
Qed.

(** X9: as long as no worker has reported "inactive" or "failed", the
    placement keeps the pool balanced: registry sizes never increase with
    the pool index and any two differ by at most one (sessions are dealt
    out to the workers in turn). *)
Theorem placement_keeps_balance c evs :
  no_terminal evs → balanced (streamWorkers (after c evs)).
Proof.
  induction evs as [|ev evs IH] using rev_ind; intros Hq.
  - intros i j wi wj _ Hi Hj. unfold after in *. simpl in *.
    apply spawn_lookup in Hi as ->. apply spawn_lookup in Hj as ->.
    simpl. rewrite map_size_empty. lia.
  - assert (balanced (streamWorkers (after c evs))) as Hb.
    { apply IH. intros data Hd. apply Hq. apply elem_of_app. by left. }
    rewrite after_snoc.
    destruct (pool_change_cause ev (after c evs))
      as [->|[[r ->]|(data & -> & Hst)]]; [done| |].
    + simpl. destruct (after c evs) as [ws h]. by apply start_keeps_balance.
    + destruct (Hq data) as [Hi Hf].
      { apply elem_of_app. right. apply list_elem_of_here. }
      by destruct Hst.
Qed.

Lemma placement_keeps_balance_witness :
  balanced (streamWorkers (after 3 (ex_events ++ [start_livestream 3%nat]))).
Proof.
  apply (placement_keeps_balance 3 (ex_events ++ [start_livestream 3%nat])).
  intros data Hd. exfalso. revert Hd. unfold ex_events. simpl.
  rewrite !elem_of_cons, elem_of_nil.
  intros H. repeat (destruct H as [H|H]; [discriminate H|]). exact H.
Defined.

(** ** Sequences of events *)

Lemma with_sessions_undo ws (i : nat) w m :
  ws !! i = Some w →
  with_sessions (with_sessions ws (Z.of_nat i) m) (Z.of_nat i) (sessions w) = ws.
Proof.
  intros Hw. apply list_eq. intros j. rewrite !with_sessions_lookup.
  destruct (decide (i = j)) as [<-|]; [|done].
  rewrite decide_True, Hw by done. simpl. by destruct w.
Qed.

Lemma start_fresh_reachable c ws h r sd :
  1 ≤ c → reachable c (mkWorld ws h) → clean ws →
  h !! r = Some sd → ¬ registered ws (deviceId sd) →
  deviceId sd ≠ "__proto__" → deviceId sd ≠ "hasOwnProperty" →
  ∃ (i : nat) w,
    let m := <[deviceId sd := mkSession r]> (sessions w) in
    let ws1 := with_sessions ws (Z.of_nat i) m in
    ws !! i = Some w ∧ sessions w !! deviceId sd = None ∧
    ws1 !! i = Some {| liveCall := liveCall w; sessions := m |} ∧
    unique_owner ws1 ∧ clean ws1 ∧
    on_start_livestream r (mkWorld ws h) =
      (Ok tt, mkWorld ws1 h, [PostMessage (liveCall w) "start" sd]).
Proof.
  intros Hc Hs Hclean Hr Hk Hp Hh.
  pose proof (reachable_nonempty c _ Hc Hs) as Hne. simpl in Hne.
  destruct (getWorkerId_unregistered ws _ Hclean Hk) as (z & Hget & Hz).
  destruct (start_fresh ws h r sd z Hr Hget Hz Hne) as (i & w & Hw & _ & _ & Heq).
  rewrite set_property_plain in Heq by done.
  exists i, w. simpl. split; [done|].
  split; [|split; [|split; [|split; [|done]]]].
  - apply eq_None_not_Some. intros Hs'. apply Hk. by exists i, w.
  - by rewrite with_sessions_lookup, decide_True, Hw.
  - pose proof (reachable_step c _ (start_livestream r) Hs) as Hs1.
    apply reachable_unique in Hs1. simpl in Hs1. by rewrite Heq in Hs1.
  - by apply insert_keeps_clean.
Qed.

(** X10: in a reachable state in which no registry holds a record under
    the key ["hasOwnProperty"], a start request for a fresh key (other
    than ["__proto__"] and ["hasOwnProperty"]) followed by an "inactive"
    or "failed" message for that key leaves the pool and the payloads
    exactly as they were before the start; what remains are the "start"
    command and the relayed event. *)
Theorem start_then_terminal_restores c s r sd data :
  1 ≤ c → reachable c s →
  clean (streamWorkers s) →
  heap s !! r = Some sd →
  ¬ registered (streamWorkers s) (deviceId sd) →
  deviceId sd ≠ "__proto__" → deviceId sd ≠ "hasOwnProperty" →
  LiveCallData.deviceId (liveCallData data) = deviceId sd →
  state data = "inactive" ∨ state data = "failed" →
  ∃ t,
    run [start_livestream r; worker_message data] s =
    (s, [PostMessage t "start" sd;
         Emit ("livestream_" ++ deviceId sd)%string (state data)]).
Proof.
  intros Hc Hs Hclean Hr Hk Hp Hh Hkey Hst. destruct s as [ws h].
  simpl in Hr, Hk, Hclean.
  destruct (start_fresh_reachable c ws h r sd Hc Hs Hclean Hr Hk Hp Hh)
    as (i & w & Hw & Hfresh & Hw1 & Hu1 & Hc1 & Heq).
  exists (liveCall w). cbn [run handle]. rewrite Heq.
  unfold world_of, effects_of. simpl.
  rewrite (terminal_report _ h data i _ _ Hu1 (getWorkerId_clean _ _ Hc1) Hw1);
    [|simpl|done].
  - simpl. rewrite Hkey, delete_insert_id by done.
    by rewrite (with_sessions_undo ws i w _ Hw).
  - rewrite Hkey, lookup_insert_eq. eauto.
Qed.

Lemma start_then_terminal_restores_witness :
  ∃ t,
    run [start_livestream 3%nat; worker_message (report "failed" "C" None)]
      ex_world =
    (ex_world, [PostMessage t "start" (payload "C");
                Emit "livestream_C" "failed"]).
Proof.
  apply (start_then_terminal_restores 3 ex_world 3%nat (payload "C")
           (report "failed" "C" None)).
  - lia.
  - apply after_reachable.
  - apply clean_by_scan. vm_compute. reflexivity.
  - vm_compute. reflexivity.
  - apply first_holder_none. vm_compute. reflexivity.
  - intros H. discriminate H.
  - intros H. discriminate H.
  - reflexivity.
  - right. reflexivity.
Defined.

(** X11: the whole life of a session.  From a reachable state in which no
    registry holds a record under the key ["hasOwnProperty"], a start
    request for a fresh key (other than ["__proto__"] and
    ["hasOwnProperty"]), an "active" message for it, a stop request for it
    (with any payload of that key) and a terminal message for it produce,
    in this order, the "start" command, the "active" event, a "stop"
    command to the same thread carrying the start payload with the
    reported session id, and the terminal event.  Afterwards every
    registry is as it was before the start, and the only payload that
    changed is the one of the start request, which keeps the session
    id. *)
Theorem session_lifecycle c s r r' sd sd' data_a data_t :
  1 ≤ c → reachable c s →
  clean (streamWorkers s) →
  heap s !! r = Some sd → heap s !! r' = Some sd' →
  deviceId sd' = deviceId sd →
  ¬ registered (streamWorkers s) (deviceId sd) →
  deviceId sd ≠ "__proto__" → deviceId sd ≠ "hasOwnProperty" →
  state data_a = "active" →
  LiveCallData.deviceId (liveCallData data_a) = deviceId sd →
  state data_t = "inactive" ∨ state data_t = "failed" →
  LiveCallData.deviceId (liveCallData data_t) = deviceId sd →
  let active_sd := set_sessionId (LiveCallData.sessionId (liveCallData data_a)) sd in
  ∃ t,
    run [start_livestream r; worker_message data_a;
         stop_livestream r'; worker_message data_t] s =
    ({| streamWorkers := streamWorkers s; heap := <[r := active_sd]> (heap s) |},
     [PostMessage t "start" sd;
      Emit ("livestream_" ++ deviceId sd)%string "active";
      PostMessage t "stop" active_sd;
      Emit ("livestream_" ++ deviceId sd)%string (state data_t)]).
Proof.
  intros Hc Hs Hclean Hr Hr' Hk' Hk Hp Hh Ha Hka Ht Hkt active_sd.
  destruct s as [ws h]. simpl in Hr, Hr', Hk, Hclean.
  destruct (start_fresh_reachable c ws h r sd Hc Hs Hclean Hr Hk Hp Hh)
    as (i & w & Hw & Hfresh & Hw1 & Hu1 & Hc1 & Heq).
  set (m := <[deviceId sd := mkSession r]> (sessions w)) in *.
  set (ws1 := with_sessions ws (Z.of_nat i) m) in *.
  set (w1 := {| liveCall := liveCall w; sessions := m |}) in *.
  assert (sessions w1 !! deviceId sd = Some (mkSession r)) as Hrec
    by apply lookup_insert_eq.
  assert (∀ k, getWorkerId ws1 k = Ok (first_holder ws1 k)) as Hget
    by (intros k; by apply getWorkerId_clean).
  exists (liveCall w). cbn [run handle]. rewrite Heq.
  unfold world_of, effects_of. simpl.
  rewrite (active_report ws1 h data_a i w1 (mkSession r) sd _ Hu1 (Hget _) Hw1);
    [|by rewrite Hka|done|done].
  simpl. fold active_sd.
  assert (∃ sd2, <[r := active_sd]> h !! r' = Some sd2 ∧ deviceId sd2 = deviceId sd)
    as (sd2 & Hr2 & Hk2).
  { destruct (decide (r = r')) as [<-|Hne].
    - exists active_sd. by rewrite lookup_insert_eq.
    - exists sd'. by rewrite lookup_insert_ne. }
  rewrite (stop_registered ws1 _ r' sd2 i w1 (mkSession r) active_sd _ Hu1
             (Hget _) Hr2 Hw1);
    [|by rewrite Hk2|by rewrite lookup_insert_eq].
  simpl.
  rewrite (terminal_report ws1 _ data_t i w1 _ Hu1 (Hget _) Hw1);
    [|by rewrite Hkt, Hrec|done].
  simpl. rewrite Hka, Hkt. unfold m.
  rewrite delete_insert_id by done.
  unfold ws1. by rewrite (with_sessions_undo ws i w _ Hw).
Qed.

Lemma session_lifecycle_witness :
  ∃ t,
    run [start_livestream 3%nat; worker_message (report "active" "C" (Some "s-3"));
         stop_livestream 3%nat; worker_message (report "inactive" "C" None)]
      ex_world =
    ({| streamWorkers := streamWorkers ex_world;
        heap := <[3%nat := set_sessionId (Some "s-3") (payload "C")]> (heap ex_world) |},
     [PostMessage t "start" (payload "C");
      Emit "livestream_C" "active";
      PostMessage t "stop" (set_sessionId (Some "s-3") (payload "C"));
      Emit "livestream_C" "inactive"]).
Proof.
  apply (session_lifecycle 3 ex_world 3%nat 3%nat (payload "C") (payload "C")
           (report "active" "C" (Some "s-3")) (report "inactive" "C" None)).
  - lia.
  - apply after_reachable.
  - apply clean_by_scan. vm_compute. reflexivity.
  - vm_compute. reflexivity.
  - vm_compute. reflexivity.
  - reflexivity.
  - apply first_holder_none. vm_compute. reflexivity.
  - intros H. discriminate H.
  - intros H. discriminate H.
  - reflexivity.
  - reflexivity.
  - left. reflexivity.
  - reflexivity.
Defined.

(** X12: in a reachable state in which no registry holds a record under
    the key ["hasOwnProperty"], once an "inactive" or "failed" message for
    a key has been handled, every further status message for that key is
    dropped without any effect, and a stop request for it is answered
    with "inactive", until the key is started again. *)
Theorem after_terminal_silent c s data data' :
  reachable c s →
  clean (streamWorkers s) →
  state data = "inactive" ∨ state data = "failed" →
  LiveCallData.deviceId (liveCallData data') =
    LiveCallData.deviceId (liveCallData data) →
  let s' := world_of (on_message data s) in
  on_message data' s' = (Ok tt, s', []) ∧
  ∀ r sd,
    heap s' !! r = Some sd →
    deviceId sd = LiveCallData.deviceId (liveCallData data) →
    on_stop_livestream r s' =
      (Ok tt, s', [Emit ("livestream_" ++ deviceId sd)%string "inactive"]).
Proof.
  intros Hs Hclean Hst Hk s'. subst s'.
  pose proof (reachable_unique c s Hs) as Hu. destruct s as [ws h].
  simpl in Hclean.
  set (k := LiveCallData.deviceId (liveCallData data)) in *.
  assert (∃ ws', world_of (on_message data (mkWorld ws h)) = mkWorld ws' h ∧
                 clean ws' ∧ ¬ registered ws' k) as (ws' & -> & Hc' & Hgone).
  { pose proof (getWorkerId_clean ws k Hclean) as Hget.
    destruct (Z.ltb_spec (first_holder ws k) 0) as [Hlt|Hge].
    - rewrite (on_message_unknown data ws h _ Hget Hlt). exists ws.
      split; [done|]. split; [done|]. by apply first_holder_none.
    - apply first_holder_registered in Hge as (i & w & Hw & Hkw).
      rewrite (terminal_report ws h data i w _ Hu Hget Hw Hkw Hst).
      eexists. split; [done|].
      split; [by apply delete_keeps_clean | by apply delete_unregisters]. }
  destruct (getWorkerId_unregistered ws' k Hc' Hgone) as (z & Hget' & Hz).
  split.
  - apply (on_message_unknown data' ws' h z); [by rewrite Hk | done].
  - intros r sd Hr Hkey. simpl in Hr.
    rewrite on_stop_livestream_eq, Hr, Hkey, Hget'.
    destruct (Z.geb_spec z 0); [lia | done].
Qed.

Lemma after_terminal_silent_witness :
  on_message (report "active" "B" (Some "late"))
    (world_of (on_message (report "failed" "B" None) ex_world)) =
  (Ok tt, world_of (on_message (report "failed" "B" None) ex_world), []).
Proof.
  destruct (after_terminal_silent 3 ex_world (report "failed" "B" None)
              (report "active" "B" (Some "late"))) as [Hdrop _].
  - apply after_reachable.
  - apply clean_by_scan. vm_compute. reflexivity.
  - right. reflexivity.
  - reflexivity.
  - apply Hdrop.
Defined.

(** ** Payload objects *)

(** X13: the listeners never remove a payload object and never change
    anything in it but [sessionId]; an object that no session record
    points to is left entirely alone.  (Only its owner, through a write
    of its own, changes more.) *)
Theorem listeners_preserve_payloads ev s r sd :
  (∀ r' sd', ev ≠ caller_write r' sd') →
  heap s !! r = Some sd →
  ∃ sd',
    heap (world_of (handle ev s)) !! r = Some sd' ∧
    same_stream sd sd' ∧
    ((∀ i k rec, entry (streamWorkers s) i k = Some rec → streamData rec ≠ r) →
     sd' = sd).
Proof.
  intros Hev Hr. pose proof (handle_change ev s) as Hc. revert Hc.
  generalize (world_of (handle ev s)) as s'. intros s' Hc.
  destruct Hc as [| | |i w data rec sd0 Hw Hrec Hsd0|r0 sd0]; simpl;
    try (exists sd; split; [done|]; split; [apply same_stream_refl | done]).
  - destruct (decide (streamData rec = r)) as [<-|Hne].
    + rewrite lookup_insert_eq. eexists. split; [done|].
      rewrite Hr in Hsd0. injection Hsd0 as <-.
      split; [apply same_stream_set_sessionId|].
      intros Hfree.
      destruct (Hfree i (LiveCallData.deviceId (liveCallData data)) rec); [|done].
      unfold entry. by rewrite Hw.
    + rewrite lookup_insert_ne by done.
      exists sd. split; [done|]. split; [apply same_stream_refl | done].
  - by destruct (Hev r0 sd0).
Qed.

Lemma listeners_preserve_payloads_witness :
  ∃ sd',
    heap (world_of (handle (worker_message (report "active" "A" (Some "s-1")))
                      ex_world)) !! 1%nat = Some sd' ∧
    same_stream (payload "A") sd'.
Proof.
  destruct (listeners_preserve_payloads
              (worker_message (report "active" "A" (Some "s-1"))) ex_world
              1%nat (payload "A")) as (sd' & Hsd' & Hsame & _).
  - intros r' sd' H. discriminate H.
  - vm_compute. reflexivity.
  - exists sd'. split; [apply Hsd' | apply Hsame].
Defined.

(** X14: a stop request never changes the pool or a payload, in any state
    and whatever its argument (registered key, unknown key, or an argument
    that makes the listener throw); it only ever produces effects. *)
Theorem stop_changes_nothing r s : world_of (on_stop_livestream r s) = s.
Proof.
  destruct s as [ws h]. rewrite on_stop_livestream_eq.
  destruct (h !! r) as [sd|]; [|done].
  destruct (getWorkerId ws _) as [z|]; [|done].
  destruct (_ >=? 0); [|done].
  destruct (at_index ws _) as [w|]; [|done].
  destruct (sessions w !! deviceId sd) as [rec|]; [|done].
  by destruct (h !! streamData rec).
Qed.
